(** * The ring scraper of [tools/scrape-thediamondguy.mjs]

    A shallow embedding of the script: the helpers [safeJsonParse],
    [uniqBy], [fetchText], [extractJsonLd], [normalizeToItems],
    [toRingCard] and the driver [main], over a small model of the
    JavaScript values they handle.

    Conventions of the model.
    - A JavaScript string is a [string]: a sequence of UTF-16 code
      units.  A code unit is a number, kept as an [N]; nothing below
      needs the bound 65535.
    - A Number is represented by the text [Number::toString] gives for it
      (the text [0] for both zeros): converting to a string and testing
      for zero are the only things this script does with a number.
    - An object is the list of its own properties in creation order.
    - [JSON.parse], the network and the file system are what the script
      gets from its host; they are the variables of the sections
      below. *)

From Stdlib Require Import NArith List Bool Arith Lia.
From Stdlib.Strings Require Import Byte.
Import ListNotations.

(** ** Strings of code units *)

Inductive string : Set :=
| EmptyString
| String (c : N) (s : string).

(** String literals denote the code units of their ASCII characters. *)
Fixpoint string_of_bytes (l : list byte) : string :=
  match l with
  | [] => EmptyString
  | b :: l' => String (Byte.to_N b) (string_of_bytes l')
  end.

Fixpoint bytes_of_string (s : string) : option (list byte) :=
  match s with
  | EmptyString => Some []
  | String c s' =>
      match Byte.of_N c, bytes_of_string s' with
      | Some b, Some l => Some (b :: l)
      | _, _ => None
      end
  end.

Definition char_of_bytes (l : list byte) : option N :=
  match l with
  | [b] => Some (Byte.to_N b)
  | _ => None
  end.

Definition bytes_of_char (c : N) : option (list byte) :=
  match Byte.of_N c with
  | Some b => Some [b]
  | None => None
  end.

Declare Scope string_scope.
Delimit Scope string_scope with string.
Bind Scope string_scope with string.
String Notation string string_of_bytes bytes_of_string : string_scope.

Declare Scope char_scope.
Delimit Scope char_scope with char.
String Notation N char_of_bytes bytes_of_char : char_scope.
Notation "a =? b" := (N.eqb a b) : char_scope.

Arguments String c%_char s%_string.

Module String.

Fixpoint length (s : string) : nat :=
  match s with
  | EmptyString => 0
  | String _ s' => S (length s')
  end.

Fixpoint append (s t : string) : string :=
  match s with
  | EmptyString => t
  | String c s' => String c (append s' t)
  end.

Fixpoint eqb (s t : string) : bool :=
  match s, t with
  | EmptyString, EmptyString => true
  | String a s', String b t' => if (a =? b)%N then eqb s' t' else false
  | _, _ => false
  end.

(** [prefix p s]: [s] starts with [p]. *)
Fixpoint prefix (p s : string) : bool :=
  match p with
  | EmptyString => true
  | String a p' =>
      match s with
      | EmptyString => false
      | String b s' => if (a =? b)%N then prefix p' s' else false
      end
  end.

(** [skipn n s]: [s] without its first [n] code units. *)
Fixpoint skipn (n : nat) (s : string) : string :=
  match n, s with
  | O, _ => s
  | S _, EmptyString => EmptyString
  | S n', String _ s' => skipn n' s'
  end.

End String.

Abbreviation append := String.append.
Abbreviation prefix := String.prefix.
Infix "++" := String.append : string_scope.
Infix "=?" := String.eqb : string_scope.

Local Open Scope string_scope.
Local Open Scope list_scope.

(** ** Completions: a value, or a thrown exception *)

Inductive exn : Type :=
| TypeError
| SyntaxError
| RequestFailed (status : nat) (url : string)
| NetworkError.

Inductive completion (A : Type) : Type :=
| Normal (a : A)
| Throw (e : exn).

Arguments Normal {A} a.
Arguments Throw {A} e.

Definition bind {A B : Type} (c : completion A) (k : A -> completion B)
  : completion B :=
  match c with
  | Normal a => k a
  | Throw e => Throw e
  end.

Notation "'let*' x ':=' c 'in' k" := (bind c (fun x => k))
  (at level 10, x name, c at level 100, k at level 200).

Definition obind {A B : Type} (o : option A) (k : A -> option B) : option B :=
  match o with
  | Some a => k a
  | None => None
  end.

Notation "'let?' x ':=' o 'in' k" := (obind o (fun x => k))
  (at level 10, x name, o at level 100, k at level 200).

(** ** JavaScript values *)

Inductive number : Type := Num (repr : string).

Definition Number_toString (n : number) : string :=
  match n with Num repr => repr end.

#[warnings="-register-all"]
Inductive value : Type :=
| VUndefined
| VNull
| VBool (b : bool)
| VNum (n : number)
| VStr (s : string)
| VArr (elems : list value)
| VObj (props : list (string * value)).

(** [ToBoolean]: the falsy values are undefined, null, false, the zeros
    and NaN, and the empty string. *)
Definition ToBoolean (x : value) : bool :=
  match x with
  | VUndefined | VNull => false
  | VBool b => b
  | VNum n => negb ((Number_toString n =? "0") || (Number_toString n =? "NaN"))
  | VStr s => negb (s =? "")
  | VArr _ | VObj _ => true
  end.

(** [a || b] when evaluating [b] cannot throw. *)
Definition js_or (a b : value) : value := if ToBoolean a then a else b.

Fixpoint assoc (k : string) (props : list (string * value)) : option value :=
  match props with
  | [] => None
  | (k', v) :: rest => if k' =? k then Some v else assoc k rest
  end.

(** [x.k] and [x[k]] for the property names this script reads
    ([name], [title], [url], [sku], [item], [itemListElement], [id],
    [@type], [@graph]): none of them is inherited or built in, so the
    result is the own property of an object and undefined otherwise.
    The script only uses the plain form on objects. *)
Definition get (x : value) (k : string) : value :=
  match x with
  | VObj props => match assoc k props with Some v => v | None => VUndefined end
  | _ => VUndefined
  end.

(** [x?.k] *)
Definition opt_get (x : value) (k : string) : value :=
  match x with
  | VUndefined | VNull => VUndefined
  | _ => get x k
  end.

(** [x === 'lit'] against a string literal. *)
Definition strict_eq_str (x : value) (lit : string) : bool :=
  match x with
  | VStr s => s =? lit
  | _ => false
  end.

(** [String(x)].  An array is joined with commas, undefined and null
    elements giving the empty string.  An ordinary object prints as
    [[object Object]] through [Object.prototype.toString]; an own
    property named [toString] (never callable in parsed JSON) shadows
    it, and the conversion throws a [TypeError]. *)
Fixpoint ToString (x : value) : completion string :=
  match x with
  | VUndefined => Normal "undefined"
  | VNull => Normal "null"
  | VBool true => Normal "true"
  | VBool false => Normal "false"
  | VNum n => Normal (Number_toString n)
  | VStr s => Normal s
  | VArr elems =>
      (fix join (l : list value) : completion string :=
         match l with
         | [] => Normal ""
         | x :: rest =>
             let* s := match x with
                       | VUndefined | VNull => Normal ""
                       | _ => ToString x
                       end in
             match rest with
             | [] => Normal s
             | _ :: _ => let* r := join rest in Normal (s ++ "," ++ r)%string
             end
         end) elems
  | VObj props =>
      match assoc "toString" props with
      | Some _ => Throw TypeError
      | None => Normal "[object Object]"
      end
  end.

(** [Set.prototype.has] compares with SameValueZero.  Primitives are
    compared by value; two objects are the same only when they are one
    object, and identity is not part of this model: every key this
    script puts in a set is a string. *)
Definition SameValueZero (x y : value) : bool :=
  match x, y with
  | VUndefined, VUndefined => true
  | VNull, VNull => true
  | VBool a, VBool b => Bool.eqb a b
  | VNum a, VNum b => Number_toString a =? Number_toString b
  | VStr a, VStr b => a =? b
  | _, _ => false
  end.

Definition Set_has (seen : list value) (key : value) : bool :=
  existsb (SameValueZero key) seen.

(** ** String methods *)

Definition in_range (lo hi c : N) : bool := ((lo <=? c) && (c <=? hi))%N.

(** The code units [trim] takes off: the white space (TAB, VT, FF, the
    space, U+00A0, U+FEFF and the other space separators U+1680,
    U+2000 to U+200A, U+202F, U+205F, U+3000) and the line terminators
    (LF, CR, U+2028, U+2029). *)
Definition is_white (c : N) : bool :=
  in_range 9 13 c || (c =? 32)%N || (c =? 160)%N
  || (c =? 5760)%N || in_range 8192 8202 c
  || (c =? 8232)%N || (c =? 8233)%N || (c =? 8239)%N || (c =? 8287)%N
  || (c =? 12288)%N || (c =? 65279)%N.

Fixpoint trimStart (s : string) : string :=
  match s with
  | "" => ""
  | String c s' => if is_white c then trimStart s' else s
  end.

Fixpoint trimEnd (s : string) : string :=
  match s with
  | "" => ""
  | String c s' =>
      let t := trimEnd s' in
      if is_white c && (t =? "") then "" else String c t
  end.

(** [s.trim()] *)
Definition trim (s : string) : string := trimEnd (trimStart s).

(** [s.startsWith(p)] *)
Definition startsWith (s p : string) : bool := prefix p s.

(** The lower case of one code unit.  The table is that of the host for
    the code units 0..255 and for the two code units beyond them whose
    lower case holds an ASCII letter: U+0130, the dotted capital I,
    gives [i] followed by U+0307, and U+212A, the Kelvin sign, gives
    [k].  Any other code unit is left as it is; where the host maps it
    (a Greek or Cyrillic capital, say), the result is again made of
    code units above 127, and the script hands the lower-cased name to
    nothing but the replacement of what is outside [[a-z0-9]]. *)
Definition lower_char (c : N) : string :=
  if in_range 65 90 c
     || (in_range 192 222 c && negb (c =? 215)%N)
  then String (c + 32)%N ""
  else if (c =? 304)%N then String "i" (String 775%N "")
  else if (c =? 8490)%N then "k"
  else String c "".

(** [s.toLowerCase()] *)
Fixpoint toLowerCase (s : string) : string :=
  match s with
  | "" => ""
  | String c s' => lower_char c ++ toLowerCase s'
  end.

(** [s.split('/')] *)
Fixpoint split_slash (s : string) : list string :=
  match s with
  | "" => [""]
  | String c s' =>
      if (c =? "/")%char then "" :: split_slash s'
      else match split_slash s' with
           | h :: t => String c h :: t
           | [] => [String c ""]
           end
  end.

Definition nonempty (s : string) : bool := negb (s =? "").

(** [arr.slice(-1)[0]]: the last element, undefined on an empty array. *)
Fixpoint last_elem (l : list string) : value :=
  match l with
  | [] => VUndefined
  | [s] => VStr s
  | _ :: rest => last_elem rest
  end.

(** [[a-z0-9]] *)
Definition is_slug_char (c : N) : bool :=
  in_range 97 122 c || in_range 48 57 c.

(** [s.replace(/[^a-z0-9]+/g, '-')]: [in_run] tells that the previous
    character belonged to the run being replaced. *)
Fixpoint replace_runs (in_run : bool) (s : string) : string :=
  match s with
  | "" => ""
  | String c s' =>
      if is_slug_char c then String c (replace_runs false s')
      else if in_run then replace_runs true s'
      else String "-" (replace_runs true s')
  end.

(** [s.replace(/(^-|-$)/g, '')]: a hyphen is removed when it is the
    first or the last character. *)
Fixpoint strip_edges (at_start : bool) (s : string) : string :=
  match s with
  | "" => ""
  | String c s' =>
      if (c =? "-")%char && (at_start || (s' =? ""))
      then strip_edges false s'
      else String c (strip_edges false s')
  end.

Definition slugify (name : string) : string :=
  strip_edges true (replace_runs false (toLowerCase name)).

(** ** The regular expression of [extractJsonLd]

    [/<script[^>]*type=Qapplication\/ld\+jsonQ[^>]*>([\s\S]*?)<\/script>/gi]
    where [Q] stands for the class of the two quote characters, single
    and double.  Each function below is one piece of the pattern
    together with everything that follows it; the result is the text
    captured by the group and the text left after the match. *)

(** Case folding of the [i] flag, as far as a comparison with an ASCII
    character of the pattern can tell: no code unit above 127 folds to
    an ASCII one. *)
Definition fold_case (c : N) : N :=
  if in_range 97 122 c then (c - 32)%N else c.

(** A literal piece of the pattern at the head of [s]. *)
Fixpoint literal_ci (pat s : string) : option string :=
  match pat with
  | "" => Some s
  | String p pat' =>
      match s with
      | "" => None
      | String c s' =>
          if (fold_case p =? fold_case c)%char then literal_ci pat' s' else None
      end
  end.

(** The class [Q]: a double quote (code 34) or a single quote (code 39). *)
Definition quote (s : string) : option string :=
  match s with
  | String c s' =>
      if (c =? 34)%N || (c =? 39)%N then Some s' else None
  | "" => None
  end.

(** [([\s\S]*?)<\/script>]: the shortest body first. *)
Fixpoint lazy_body (s : string) : option (string * string) :=
  match literal_ci "</script>" s with
  | Some rest => Some ("", rest)
  | None =>
      match s with
      | "" => None
      | String c s' =>
          let? r := lazy_body s' in Some (String c (fst r), snd r)
      end
  end.

(** [[^>]*>] and the body: the longest run first, and a shorter run
    cannot be followed by [>]. *)
Fixpoint tag_close (s : string) : option (string * string) :=
  match s with
  | "" => None
  | String c s' => if (c =? ">")%char then lazy_body s' else tag_close s'
  end.

(** [type=Qapplication\/ld\+jsonQ] and what follows. *)
Definition type_attr (s : string) : option (string * string) :=
  let? s1 := literal_ci "type=" s in
  let? s2 := quote s1 in
  let? s3 := literal_ci "application/ld+json" s2 in
  let? s4 := quote s3 in
  tag_close s4.

(** The first [[^>]*]: greedy, giving characters back one at a time
    until the rest of the pattern matches. *)
Fixpoint tag_attrs (s : string) : option (string * string) :=
  match s with
  | "" => type_attr ""
  | String c s' =>
      if (c =? ">")%char then type_attr s
      else match tag_attrs s' with
           | Some r => Some r
           | None => type_attr s
           end
  end.

(** A match starting at the head of [s]. *)
Definition match_here (s : string) : option (string * string) :=
  let? s1 := literal_ci "<script" s in tag_attrs s1.

(** [re.exec]: the leftmost match at or after the current position;
    [s] is the text from [lastIndex] on, and the second component of
    the result the text from the new [lastIndex] on. *)
Fixpoint re_exec (s : string) : option (string * string) :=
  match match_here s with
  | Some r => Some r
  | None =>
      match s with
      | "" => None
      | String _ s' => re_exec s'
      end
  end.

(** ** The helpers that need nothing from the host *)

Section UniqBy.

Context {A : Type}.
Variable keyFn : A -> value.

(** The [for] loop of [uniqBy], with the set [seen] and the array
    [out] it updates. *)
Fixpoint uniqBy_loop (arr : list A) (seen : list value) (out : list A)
  : list A :=
  match arr with
  | [] => out
  | item :: rest =>
      let key := keyFn item in
      if negb (ToBoolean key) || Set_has seen key
      then uniqBy_loop rest seen out
      else uniqBy_loop rest (seen ++ [key]) (out ++ [item])
  end.

End UniqBy.

Definition uniqBy {A : Type} (arr : list A) (keyFn : A -> value) : list A :=
  uniqBy_loop keyFn arr [] [].

(** [pushAny] returns what the closure of the source pushes on [items]. *)
Fixpoint pushAny (x : value) : list value :=
  if negb (ToBoolean x) then []
  else
    match x with
    | VArr elems => flat_map pushAny elems
    | VObj props =>
        (fix graph (ps : list (string * value)) : list value :=
           match ps with
           | [] => []
           | (k, v) :: rest =>
               if k =? "@graph"
               then (if ToBoolean v then pushAny v else [])
               else graph rest
           end) props ++ [x]
    | _ => []
    end.

Definition normalizeToItems (jsonld : value) : list value := pushAny jsonld.

Definition ring (id name href : value) : value :=
  VObj [("id", id); ("name", name); ("tagline", VStr ""); ("href", href);
        ("badge", VStr "Imported"); ("model", VNum (Num "1"))].

(** [(product?.sku && String(product.sku))] *)
Definition id_from_sku (product : value) : completion value :=
  if ToBoolean (opt_get product "sku")
  then let* s := ToString (get product "sku") in Normal (VStr s)
  else Normal (opt_get product "sku").

(** [(url && String(url).split('/').filter(Boolean).slice(-1)[0])] *)
Definition id_from_url (url : value) : completion value :=
  if ToBoolean url
  then let* s := ToString url in
       Normal (last_elem (filter nonempty (split_slash s)))
  else Normal url.

(** [name.toLowerCase().replace(...).replace(...)]: only a string has
    a [toLowerCase] method to call. *)
Definition id_from_name (name : value) : completion value :=
  match name with
  | VStr n => Normal (VStr (slugify n))
  | _ => Throw TypeError
  end.

(** The initializer of [const id] in [toRingCard]. *)
Definition derive_id (product name url : value) : completion value :=
  let* a := id_from_sku product in
  if ToBoolean a then Normal a
  else
    let* b := id_from_url url in
    if ToBoolean b then Normal b else id_from_name name.

Definition toRingCard (product : value) : completion value :=
  let name := js_or (opt_get product "name") (opt_get product "title") in
  let url := opt_get product "url" in
  if negb (ToBoolean name) then Normal VNull
  else
    let* id := derive_id product name url in
    let* n := ToString name in
    let* href := (if ToBoolean url
                  then let* s := ToString url in Normal (VStr s)
                  else Normal (VStr "")) in
    Normal (ring id (VStr (trim n)) href).

(** ** The helpers and the driver over the host *)

Definition SITE : string := "https://www.thediamondguy.co.za".

(** What [fetch] resolves to, as far as [fetchText] looks at it:
    [res.ok], [res.status], and what [res.text()] resolves to. *)
Record response : Type :=
  { ok : bool; status : nat; text : completion string }.

(** The placeholder dataset of [main]. *)
Definition placeholders : list value :=
  [ VObj [("id", VStr "classic-solitaire"); ("name", VStr "Classic Solitaire");
          ("tagline", VStr "Clean lines, timeless profile");
          ("model", VNum (Num "1")); ("badge", VStr "Configurable")];
    VObj [("id", VStr "halo-ensemble"); ("name", VStr "Halo Ensemble");
          ("tagline", VStr "Soft sparkle, elevated presence");
          ("model", VNum (Num "2")); ("badge", VStr "Configurable")] ].

(** [jsonlds.find((x) => x?.['@type'] === tag)], undefined when no
    element passes. *)
Definition find_type (tag : string) (items : list value) : value :=
  match find (fun x => strict_eq_str (opt_get x "@type") tag) items with
  | Some x => x
  | None => VUndefined
  end.

(** [li?.url || li?.item?.url || li?.item] *)
Definition entry_url (li : value) : value :=
  js_or (js_or (opt_get li "url") (opt_get (opt_get li "item") "url"))
        (opt_get li "item").

(** The loop of [main] over the list entries, with the array [urls]. *)
Fixpoint listed_urls (entries : list value) (urls : list string) : list string :=
  match entries with
  | [] => urls
  | li :: rest =>
      match entry_url li with
      | VStr u =>
          if startsWith u "http" then listed_urls rest (urls ++ [u])
          else if startsWith u "/" then listed_urls rest (urls ++ [(SITE ++ u)%string])
          else listed_urls rest urls
      | _ => listed_urls rest urls
      end
  end.

(** What a run has done when [main] is through line 129: the URLs
    requested, in order, and either the array [rings] that the last
    lines of [main] go on to write, or the exception that made [main]
    reject before that.  The last lines, where the directory is made
    and the file is written, are [write_rings] and [main_settled]
    below. *)
Record run : Type :=
  { fetched : list string; outcome : completion (list value) }.

Section Scraper.

(** [JSON.parse]: the parsed value, or a [SyntaxError]. *)
Variable JSON_parse : string -> completion value.

(** [fetch(url, ...)]: a response, or a rejection. *)
Variable fetch : string -> completion response.

Definition safeJsonParse (text : string) : value :=
  match JSON_parse text with
  | Normal v => v
  | Throw _ => VNull
  end.

(** [fetchText], with the log of the URLs requested so far. *)
Definition fetchText (url : string) (log : list string)
  : completion string * list string :=
  (let* res := fetch url in
   if negb (ok res) then Throw (RequestFailed (status res) url)
   else text res,
   log ++ [url]).

(** The [while] loop of [extractJsonLd]: [html] is the text from
    [re.lastIndex] on.  Every match consumes at least one character, so
    [fuel] bounds the number of iterations when it is at least the
    length of [html]. *)
Fixpoint extract_loop (fuel : nat) (html : string) (out : list value)
  : list value :=
  match fuel with
  | O => out
  | S fuel' =>
      match re_exec html with
      | None => out
      | Some (m1, rest) =>
          let raw := trim m1 in
          let parsed := safeJsonParse raw in
          if negb (ToBoolean parsed) then extract_loop fuel' rest out
          else extract_loop fuel' rest (out ++ [parsed])
      end
  end.

Definition extractJsonLd (html : string) : list value :=
  extract_loop (String.length html) html [].

(** [extractJsonLd(html).flatMap(normalizeToItems)] *)
Definition page_items (html : string) : list value :=
  flat_map normalizeToItems (extractJsonLd html).

(** The body of the [try] block of [main]: the record to push on
    [products], if any. *)
Definition scrape_page (u : string) (log : list string)
  : completion (option value) * list string :=
  let (r, log') := fetchText u log in
  (let* html := r in
   let pageJson := page_items html in
   let product := find_type "Product" pageJson in
   if negb (ToBoolean product) then Normal None
   else
     let* card := toRingCard product in
     if ToBoolean card then Normal (Some card) else Normal None,
   log').

(** The [for] loop of [main] over the product pages, with the array
    [products]; a page that throws is ignored. *)
Fixpoint collect (pages : list string) (products : list value)
  (log : list string) : list value * list string :=
  match pages with
  | [] => (products, log)
  | u :: rest =>
      let (r, log') := scrape_page u log in
      match r with
      | Normal (Some card) => collect rest (products ++ [card]) log'
      | Normal None => collect rest products log'
      | Throw _ => collect rest products log'
      end
  end.

(** The candidate product URLs read from the home page. *)
Definition candidate_urls (homeHtml : string) : list string :=
  let jsonlds := page_items homeHtml in
  let itemList := find_type "ItemList" jsonlds in
  let listItems := js_or (opt_get itemList "itemListElement") (VArr []) in
  listed_urls (match listItems with VArr l => l | _ => [] end) [].

(** [products.length ? uniqBy(products, (p) => p.id) : [placeholders]] *)
Definition rings_of (products : list value) : list value :=
  match products with
  | [] => placeholders
  | _ :: _ => uniqBy products (fun p => get p "id")
  end.

(** [main], lines 93 to 129. *)
Definition main : run :=
  let (r, log) := fetchText SITE [] in
  match r with
  | Throw e => {| fetched := log; outcome := Throw e |}
  | Normal homeHtml =>
      let urls := candidate_urls homeHtml in
      let productPages := uniqBy urls VStr in
      let (products, log') := collect (firstn 60 productPages) [] log in
      let rings := rings_of products in
      {| fetched := log'; outcome := Normal rings |}
  end.

End Scraper.

(** ** A reader of JSON texts, to run the script on concrete pages

    [read_json] follows the JSON grammar.  It stands for [JSON.parse]
    in the runs below and is narrower in one place, where it rejects a
    text the host would accept: the only numbers it reads are integers
    of at most 15 digits, whose [Number::toString] is the literal
    itself. *)

Definition is_json_space (c : N) : bool :=
  (c =? 32)%N || (c =? 9)%N || (c =? 10)%N || (c =? 13)%N.

Fixpoint skip_space (s : string) : string :=
  match s with
  | "" => ""
  | String c s' => if is_json_space c then skip_space s' else s
  end.

Definition hex_digit (c : N) : option N :=
  if in_range 48 57 c then Some (c - 48)%N
  else if in_range 97 102 c then Some (c - 87)%N
  else if in_range 65 70 c then Some (c - 55)%N
  else None.

Definition escape_char (e : N) : option N :=
  if (e =? 34)%N || (e =? 92)%N || (e =? 47)%N then Some e
  else if (e =? "b")%char then Some (8%N)
  else if (e =? "f")%char then Some (12%N)
  else if (e =? "n")%char then Some (10%N)
  else if (e =? "r")%char then Some (13%N)
  else if (e =? "t")%char then Some (9%N)
  else None.

(** The characters of a string literal after its opening quote. *)
Fixpoint read_string (s : string) : option (string * string) :=
  match s with
  | "" => None
  | String c s' =>
      if (c =? 34)%N then Some ("", s')
      else if (c =? 92)%N then
        match s' with
        | String "u" (String h1 (String h2 (String h3 (String h4 s'')))) =>
            let? d1 := hex_digit h1 in
            let? d2 := hex_digit h2 in
            let? d3 := hex_digit h3 in
            let? d4 := hex_digit h4 in
            let n := (((d1 * 16 + d2) * 16 + d3) * 16 + d4)%N in
            let? r := read_string s'' in
            Some (String n (fst r), snd r)
        | String e s'' =>
            let? c' := escape_char e in
            let? r := read_string s'' in
            Some (String c' (fst r), snd r)
        | "" => None
        end
      else if (c <? 32)%N then None
      else let? r := read_string s' in Some (String c (fst r), snd r)
  end.

Definition is_digit (c : N) : bool := in_range 48 57 c.

Fixpoint span_digits (s : string) : string * string :=
  match s with
  | "" => ("", "")
  | String c s' =>
      if is_digit c
      then let r := span_digits s' in (String c (fst r), snd r)
      else ("", s)
  end.

(** An integer literal: an optional sign, then [0] or a digit string
    that does not start with [0]. *)
Definition read_number (s : string) : option (value * string) :=
  let (neg, s1) := match s with
                   | String "-" s' => (true, s')
                   | _ => (false, s)
                   end in
  let (digits, rest) := span_digits s1 in
  match digits with
  | "" => None
  | String d ds =>
      if (d =? "0")%char && negb (ds =? "") then None
      else if (15 <? String.length digits)%nat then None
      else
        match rest with
        | String c _ =>
            if (c =? ".")%char || (c =? "e")%char || (c =? "E")%char then None
            else Some (VNum (Num (if neg && negb (d =? "0")%char
                                  then String "-" digits else digits)), rest)
        | "" => Some (VNum (Num (if neg && negb (d =? "0")%char
                                 then String "-" digits else digits)), rest)
        end
  end.

(** [CreateDataProperty]: a repeated key keeps its place and takes the
    later value. *)
Fixpoint set_prop (k : string) (v : value) (props : list (string * value))
  : list (string * value) :=
  match props with
  | [] => [(k, v)]
  | (k', v') :: rest =>
      if k' =? k then (k', v) :: rest else (k', v') :: set_prop k v rest
  end.

Definition keyword (kw : string) (v : value) (s : string)
  : option (value * string) :=
  if prefix kw s
  then Some (v, String.skipn (String.length kw) s)
  else None.

Fixpoint read_value (fuel : nat) (s : string) : option (value * string) :=
  match fuel with
  | O => None
  | S fuel' =>
      match skip_space s with
      | "" => None
      | String c s' =>
          if (c =? "[")%char then
            match skip_space s' with
            | String "]" r => Some (VArr [], r)
            | _ => read_elements fuel' s' []
            end
          else if (c =? "{")%char then
            match skip_space s' with
            | String "}" r => Some (VObj [], r)
            | _ => read_members fuel' s' []
            end
          else if (c =? 34)%N then
            let? r := read_string s' in Some (VStr (fst r), snd r)
          else if (c =? "t")%char then keyword "true" (VBool true) (String c s')
          else if (c =? "f")%char then keyword "false" (VBool false) (String c s')
          else if (c =? "n")%char then keyword "null" VNull (String c s')
          else read_number (String c s')
      end
  end
with read_elements (fuel : nat) (s : string) (acc : list value)
  : option (value * string) :=
  match fuel with
  | O => None
  | S fuel' =>
      let? r := read_value fuel' s in
      let acc' := acc ++ [fst r] in
      match skip_space (snd r) with
      | String c s' =>
          if (c =? ",")%char then read_elements fuel' s' acc'
          else if (c =? "]")%char then Some (VArr acc', s')
          else None
      | "" => None
      end
  end
with read_members (fuel : nat) (s : string) (acc : list (string * value))
  : option (value * string) :=
  match fuel with
  | O => None
  | S fuel' =>
      match skip_space s with
      | "" => None
      | String q s1 =>
          if negb (q =? 34)%N then None
          else
            let? k := read_string s1 in
            match skip_space (snd k) with
            | String ":" s2 =>
                let? v := read_value fuel' s2 in
                let acc' := set_prop (fst k) (fst v) acc in
                match skip_space (snd v) with
                | String c s3 =>
                    if (c =? ",")%char then read_members fuel' s3 acc'
                    else if (c =? "}")%char then Some (VObj acc', s3)
                    else None
                | "" => None
                end
            | _ => None
            end
      end
  end.

Definition read_json (text : string) : completion value :=
  match read_value (2 * String.length text + 2) text with
  | Some (v, rest) =>
      if skip_space rest =? "" then Normal v else Throw SyntaxError
  | None => Throw SyntaxError
  end.

(** The pages of the examples are written with a backquote wherever the
    page has a double quote. *)
Fixpoint dq (s : string) : string :=
  match s with
  | "" => ""
  | String c s' =>
      String (if (c =? 96)%N then 34%N else c) (dq s')
  end.

(** A host that serves the given pages with status 200 and answers 404
    for every other URL. *)
Fixpoint serve (pages : list (string * string)) (url : string)
  : completion response :=
  match pages with
  | [] => Normal {| ok := false; status := 404; text := Normal "" |}
  | (u, html) :: rest =>
      if u =? url
      then Normal {| ok := true; status := 200; text := Normal html |}
      else serve rest url
  end.

(** ** Auxiliary definitions for the statements *)

(** What the loop of [uniqBy] appends to [out], as a function of the
    set alone. *)
Fixpoint kept {A : Type} (keyFn : A -> value) (seen : list value)
  (arr : list A) : list A :=
  match arr with
  | [] => []
  | item :: rest =>
      if negb (ToBoolean (keyFn item)) || Set_has seen (keyFn item)
      then kept keyFn seen rest
      else item :: kept keyFn (seen ++ [keyFn item]) rest
  end.

(** [Subsequence l l']: [l] is [l'] with some elements left out. *)
Inductive Subsequence {A : Type} : list A -> list A -> Prop :=
| sub_nil : Subsequence [] []
| sub_skip (x : A) (l l' : list A) : Subsequence l l' -> Subsequence l (x :: l')
| sub_take (x : A) (l l' : list A) :
    Subsequence l l' -> Subsequence (x :: l) (x :: l').

(** The values that are not objects. *)
Definition is_primitive (v : value) : bool :=
  match v with
  | VArr _ | VObj _ => false
  | _ => true
  end.

(** [(p) => p.id] *)
Definition id_of (p : value) : value := get p "id".

(** [[A-Za-z0-9]] *)
Definition is_alnum (c : N) : bool :=
  in_range 48 57 c || in_range 65 90 c || in_range 97 122 c.

(** A name without any letter or digit of [[A-Za-z0-9]]. *)
Fixpoint no_alnum (s : string) : bool :=
  match s with
  | "" => true
  | String c s' => negb (is_alnum c) && no_alnum s'
  end.

(** The code units whose lower case holds a character of [[a-z0-9]]:
    those of [[A-Za-z0-9]], U+0130 and U+212A. *)
Definition slug_source (c : N) : bool :=
  is_alnum c || (c =? 304)%N || (c =? 8490)%N.

(** A name none of whose code units is one of those. *)
Fixpoint no_slug_source (s : string) : bool :=
  match s with
  | "" => true
  | String c s' => negb (slug_source c) && no_slug_source s'
  end.

(** A text with a character of [[a-z0-9]] in it. *)
Fixpoint has_slug_char (s : string) : bool :=
  match s with
  | "" => false
  | String c s' => is_slug_char c || has_slug_char s'
  end.

(** [lowering s t]: [t] is [s] with every code unit replaced by its
    lower case: the one of the table of [lower_char] or, for a code
    unit above 255 that is not a [slug_source], any text that is not
    empty and has no character of [[a-z0-9]], which is what the host
    gives where the table stops. *)
Inductive lowering : string -> string -> Prop :=
| lowering_nil : lowering "" ""
| lowering_table (c : N) (s t : string) :
    lowering s t -> lowering (String c s) (lower_char c ++ t)
| lowering_host (c : N) (w s t : string) :
    (255 < c)%N -> slug_source c = false ->
    w <> "" -> has_slug_char w = false ->
    lowering s t -> lowering (String c s) (w ++ t).

(** A record that [toRingCard] returned for some item. *)
Definition mapped (card : value) : Prop :=
  exists product, toRingCard product = Normal card /\ ToBoolean card = true.

(** The records a run has in [products] when its loop ends. *)
Definition collected (JSON_parse : string -> completion value)
  (fetch : string -> completion response) : list value :=
  match fetchText fetch SITE [] with
  | (Normal homeHtml, log) =>
      fst (collect JSON_parse fetch
             (firstn 60 (uniqBy (candidate_urls JSON_parse homeHtml) VStr)) [] log)
  | (Throw _, _) => []
  end.

(** The product pages a run sets out to visit. *)
Definition product_pages (JSON_parse : string -> completion value)
  (homeHtml : string) : list string :=
  uniqBy (candidate_urls JSON_parse homeHtml) VStr.

(** The items of the examples. *)
Definition item_sku_url : value :=
  VObj [("@type", VStr "Product"); ("name", VStr "Halo Ring");
        ("sku", VStr "HALO-7");
        ("url", VStr "https://www.thediamondguy.co.za/rings/halo")].

Definition item_sku_zero : value :=
  VObj [("@type", VStr "Product"); ("name", VStr "Halo Ring");
        ("sku", VNum (Num "0"));
        ("url", VStr "https://www.thediamondguy.co.za/rings/halo")].

Definition item_name_only : value :=
  VObj [("@type", VStr "Product"); ("name", VStr "Classic Solitaire!!")].

Definition item_symbols : value :=
  VObj [("@type", VStr "Product"); ("name", VStr "***")].

(** The Kelvin sign U+212A as a name, and an item that has this name. *)
Definition kelvin : string := String 8490%N "".

Definition item_kelvin : value :=
  VObj [("@context", VStr "https://schema.org"); ("@type", VStr "Product");
        ("name", VStr kelvin)].

(** The texts captured by the successive matches of the pattern, in the
    order of the page. *)
Fixpoint captures (fuel : nat) (html : string) : list string :=
  match fuel with
  | O => []
  | S fuel' =>
      match re_exec html with
      | None => []
      | Some (m1, rest) => m1 :: captures fuel' rest
      end
  end.

(** The values that are neither null, undefined, an array nor an object. *)
Definition is_scalar (v : value) : bool :=
  match v with
  | VBool _ | VNum _ | VStr _ => true
  | _ => false
  end.

(** A page with one block, whose body is the JSON text [false]. *)
Definition page_false : string :=
  "<script type='application/ld+json'> false </script>".

Definition is_string (v : value) : bool :=
  match v with VStr _ => true | _ => false end.

Fixpoint all_digits (s : string) : bool :=
  match s with
  | "" => true
  | String c s' => in_range 48 57 c && all_digits s'
  end.

(** A number that prints as an integer. *)
Definition is_integer (v : value) : bool :=
  match v with
  | VNum (Num (String "-" (String c r))) => all_digits (String c r)
  | VNum (Num (String c r)) => all_digits (String c r)
  | _ => false
  end.

(** The shape of an output record: an object of six properties, among
    them the strings [id], [name], [tagline], [href], [badge] and the
    integer [model]. *)
Definition output_record (p : value) : bool :=
  match p with
  | VObj props =>
      (List.length props =? 6)%nat
      && is_string (get p "id") && is_string (get p "name")
      && is_string (get p "tagline") && is_string (get p "href")
      && is_string (get p "badge") && is_integer (get p "model")
  | _ => false
  end.

(** ** Pages of the examples *)

Definition home_solitaire : string :=
  dq "<html><head><script type=`application/ld+json`>
{`@context`:`https://schema.org`,`@type`:`ItemList`,
 `itemListElement`:[{`@type`:`ListItem`,`position`:1,`url`:`/rings/solitaire`}]}
</script></head><body></body></html>".

Definition page_solitaire : string :=
  dq "<html><head><script type=`application/ld+json`>
{`@context`:`https://schema.org`,`@type`:`Product`,
 `name`:`Solitaire Ring`,`sku`:`SOL-1`}
</script></head><body></body></html>".

Definition page_solitaire_url : string :=
  dq "<html><head><script type=`application/ld+json`>
{`@context`:`https://schema.org`,`@type`:`Product`,
 `name`:`Solitaire Ring`,`sku`:`SOL-1`,
 `url`:`https://www.thediamondguy.co.za/rings/solitaire`}
</script></head><body></body></html>".

Definition page_symbols : string :=
  dq "<html><head><script type=`application/ld+json`>
{`@context`:`https://schema.org`,`@type`:`Product`,`name`:`***`}
</script></head><body></body></html>".

(** A product page whose Product is named with the Kelvin sign, written
    as an escape of the JSON text. *)
Definition page_kelvin : string :=
  dq "<html><head><script type=`application/ld+json`>
{`@context`:`https://schema.org`,`@type`:`Product`,`name`:`\u212A`}
</script></head><body></body></html>".

Definition url_solitaire : string := (SITE ++ "/rings/solitaire")%string.

(** The site of the end-to-end scenario, its product page without and
    with a [url] property. *)
Definition site_solitaire : string -> completion response :=
  serve [(SITE, home_solitaire); (url_solitaire, page_solitaire)].

Definition site_solitaire_url : string -> completion response :=
  serve [(SITE, home_solitaire); (url_solitaire, page_solitaire_url)].

(** A site whose only product is named [***]. *)
Definition site_symbols : string -> completion response :=
  serve [(SITE, home_solitaire); (url_solitaire, page_symbols)].

(** A site whose only product is named with the Kelvin sign. *)
Definition site_kelvin : string -> completion response :=
  serve [(SITE, home_solitaire); (url_solitaire, page_kelvin)].

(** A site whose home page has no structured data. *)
Definition site_bare : string -> completion response :=
  serve [(SITE, "<html><head></head><body></body></html>")].

(** A home page that lists [n] product pages, none of which exists. *)
Fixpoint tally (n : nat) : string :=
  match n with
  | O => ""
  | S k => String "i" (tally k)
  end.

Fixpoint listing (n : nat) : string :=
  match n with
  | O => ""
  | S k =>
      ((if (k =? 0)%nat then "" else listing k ++ ",")
       ++ "{`url`:`/rings/" ++ tally n ++ "`}")%string
  end.

Definition home_listing (n : nat) : string :=
  dq ("<script type=`application/ld+json`>{`@type`:`ItemList`,`itemListElement`:["
      ++ listing n ++ "]}</script>")%string.

Definition site_listing (n : nat) : string -> completion response :=
  serve [(SITE, home_listing n)].

(** Two records with the empty id, and three of which two share an id. *)
Definition card_stars : value := ring (VStr "") (VStr "***") (VStr "").
Definition card_dashes : value := ring (VStr "") (VStr "---") (VStr "").
Definition card_a1 : value := ring (VStr "a") (VStr "First") (VStr "").
Definition card_b : value := ring (VStr "b") (VStr "Second") (VStr "").
Definition card_a2 : value := ring (VStr "a") (VStr "Third") (VStr "").

(** [same_id p x]: [x] has the id of [p]. *)
Definition same_id (p x : value) : bool := SameValueZero (id_of x) (id_of p).

(** The values parsed from the pages of the scenario. *)
Definition entry_solitaire : value :=
  VObj [("@type", VStr "ListItem"); ("position", VNum (Num "1"));
        ("url", VStr "/rings/solitaire")].

Definition list_solitaire : value :=
  VObj [("@context", VStr "https://schema.org"); ("@type", VStr "ItemList");
        ("itemListElement", VArr [entry_solitaire])].

Definition product_solitaire : value :=
  VObj [("@context", VStr "https://schema.org"); ("@type", VStr "Product");
        ("name", VStr "Solitaire Ring"); ("sku", VStr "SOL-1")].

Definition product_solitaire_url : value :=
  VObj [("@context", VStr "https://schema.org"); ("@type", VStr "Product");
        ("name", VStr "Solitaire Ring"); ("sku", VStr "SOL-1");
        ("url", VStr url_solitaire)].

(** ** Further definitions: the rest of the script and its parts *)

Section Output.

(** [fs.mkdir(path.dirname(outPath), { recursive: true })]: resolves, or
    rejects. *)
Variable mkdir : completion unit.

(** [JSON.stringify(rings, null, 2)], on an array of records made of
    strings and numbers, where it returns a string. *)
Variable JSON_stringify : list value -> string.

(** [fs.writeFile(outPath, text, 'utf8')] at the fixed path: resolves,
    or rejects. *)
Variable writeFile : string -> completion unit.

(** [main], lines 131 to 134: the directory is made, then the file is
    written; the result is the text written.  The line logged at the
    end does not change what the run comes to. *)
Definition write_rings (rings : list value) : completion string :=
  let* _ := mkdir in
  let text := (JSON_stringify rings ++ String 10%N "")%string in
  let* _ := writeFile text in
  Normal text.

(** What the promise [main()] settles to: fulfilled, with the text
    written to the file, or rejected. *)
Definition main_settled (r : run) : completion string :=
  let* rings := outcome r in write_rings rings.

End Output.

(** [main().catch(...)]: the exit code the process ends with, 1 when
    [main()] rejects. *)
Definition exitCode {A : Type} (settled : completion A) : nat :=
  match settled with
  | Normal _ => 0
  | Throw _ => 1
  end.

(** What one product page adds to [products]: the record of its first
    Product, or nothing. *)
Definition page_record (JSON_parse : string -> completion value)
  (fetch : string -> completion response) (u : string) : list value :=
  match fst (scrape_page JSON_parse fetch u []) with
  | Normal (Some card) => [card]
  | Normal None => []
  | Throw _ => []
  end.

(** What one entry of the item list adds to [urls]. *)
Definition entry_candidates (li : value) : list string :=
  match entry_url li with
  | VStr u =>
      if startsWith u "http" then [u]
      else if startsWith u "/" then [(SITE ++ u)%string]
      else []
  | _ => []
  end.

Definition is_object (v : value) : bool :=
  match v with VObj _ => true | _ => false end.

(** A page whose first Product has no name and whose second has one. *)
Definition page_two_products : string :=
  dq "<html><head><script type=`application/ld+json`>
[{`@type`:`BreadcrumbList`},
 {`@type`:`Product`,`sku`:`A-1`},
 {`@type`:`Product`,`name`:`Named Ring`,`sku`:`B-2`}]
</script></head></html>".

Definition site_two_products : string -> completion response :=
  serve [(SITE, home_solitaire); (url_solitaire, page_two_products)].

(** [pat] occurs somewhere in [s], letter case aside. *)
Fixpoint contains_ci (pat s : string) : bool :=
  match literal_ci pat s with
  | Some _ => true
  | None =>
      match s with
      | "" => false
      | String _ s' => contains_ci pat s'
      end
  end.

(** Runs of [[a-z0-9]] separated by single hyphens; [at_edge] tells that
    the text starts here or that a hyphen came just before, where the
    text may neither end nor go on with a hyphen. *)
Fixpoint hyphen_separated (at_edge : bool) (s : string) : bool :=
  match s with
  | "" => negb at_edge
  | String c s' =>
      if (c =? "-")%char then negb at_edge && hyphen_separated true s'
      else is_slug_char c && hyphen_separated false s'
  end.

(** The empty text, or [[a-z0-9]+(-[a-z0-9]+)*]. *)
Definition clean_slug (s : string) : bool :=
  (s =? "") || hyphen_separated true s.

Fixpoint has_slash (s : string) : bool :=
  match s with
  | "" => false
  | String c s' => (c =? "/")%char || has_slash s'
  end.

(** [String(url).split('/').filter(Boolean)] *)
Definition segments (u : string) : list string :=
  filter nonempty (split_slash u).

(** Two items of the examples: one with properties the mapper does not
    read, and the same without them. *)
Definition item_rich : value :=
  VObj [("@context", VStr "https://schema.org"); ("@type", VStr "Product");
        ("name", VStr "  Halo Ring "); ("description", VStr "A ring");
        ("sku", VStr "HALO-7"); ("id", VStr "other");
        ("offers", VObj [("price", VNum (Num "1999"))]);
        ("url", VStr "https://www.thediamondguy.co.za/rings/halo/")].

Definition item_plain : value :=
  VObj [("name", VStr "  Halo Ring "); ("sku", VStr "HALO-7");
        ("url", VStr "https://www.thediamondguy.co.za/rings/halo/")].
(** * Properties *)

(** ** Strings *)

Lemma string_eqb_refl (s : string) : (s =? s) = true.
Proof.
  induction s as [|c s IH]; [reflexivity|].
  cbn [String.eqb]. now rewrite N.eqb_refl.
Qed.

Lemma string_eqb_eq (s t : string) : (s =? t) = true <-> s = t.
Proof.
  split; [|intros <-; apply string_eqb_refl].
  revert t. induction s as [|c s IH]; intros [|d t]; cbn [String.eqb];
    try discriminate; [reflexivity|].
  destruct (c =? d)%N eqn:E; [|discriminate].
  apply N.eqb_eq in E. intros H. now rewrite E, (IH t H).
Qed.

Lemma string_eqb_neq (s t : string) : (s =? t) = false <-> s <> t.
Proof.
  rewrite <- string_eqb_eq. destruct (s =? t); split; congruence.
Qed.

Lemma string_eqb_sym (s t : string) : (s =? t) = (t =? s).
Proof.
  destruct (t =? s) eqn:E.
  - apply string_eqb_eq in E. subst. apply string_eqb_refl.
  - apply string_eqb_neq. apply string_eqb_neq in E. congruence.
Qed.


(** * Properties of the helpers *)

(** ** Keys of a set *)

Lemma SameValueZero_true (x y : value) : SameValueZero x y = true -> x = y.
Proof.
  destruct x, y; simpl; try discriminate; try reflexivity.
  - intros H. apply Bool.eqb_prop in H. now subst.
  - destruct n as [a], n0 as [b]; simpl. intros H.
    apply string_eqb_eq in H. now subst.
  - intros H. apply string_eqb_eq in H. now subst.
Qed.

Lemma SameValueZero_refl (x : value) :
  is_primitive x = true -> SameValueZero x x = true.
Proof.
  destruct x; simpl; try discriminate; try reflexivity; intros _.
  - apply Bool.eqb_reflx.
  - apply string_eqb_refl.
  - apply string_eqb_refl.
Qed.

Lemma SameValueZero_sym (x y : value) : SameValueZero x y = SameValueZero y x.
Proof.
  destruct x, y; simpl; try reflexivity.
  - now destruct b, b0.
  - apply string_eqb_sym.
  - apply string_eqb_sym.
Qed.

Lemma Set_has_add (seen : list value) (k key : value) :
  Set_has (seen ++ [k]) key = Set_has seen key || SameValueZero key k.
Proof.
  unfold Set_has. rewrite existsb_app. simpl. now rewrite orb_false_r.
Qed.

(** ** [uniqBy] *)

Section UniqByFacts.

Context {A : Type}.
Variable keyFn : A -> value.

Lemma uniqBy_loop_kept (arr : list A) :
  forall seen out, uniqBy_loop keyFn arr seen out = out ++ kept keyFn seen arr.
Proof.
  induction arr as [|item rest IH]; intros seen out; simpl.
  - now rewrite app_nil_r.
  - destruct (negb (ToBoolean (keyFn item)) || Set_has seen (keyFn item)).
    + apply IH.
    + rewrite IH, <- app_assoc. reflexivity.
Qed.

Lemma uniqBy_kept (arr : list A) : uniqBy arr keyFn = kept keyFn [] arr.
Proof. unfold uniqBy. now rewrite uniqBy_loop_kept. Qed.

Lemma kept_In (arr : list A) :
  forall seen x, In x (kept keyFn seen arr) ->
    In x arr /\ ToBoolean (keyFn x) = true /\ Set_has seen (keyFn x) = false.
Proof.
  induction arr as [|item rest IH]; intros seen x; simpl; [tauto|].
  destruct (ToBoolean (keyFn item)) eqn:Ht; simpl.
  - destruct (Set_has seen (keyFn item)) eqn:Hs.
    + intros H. apply IH in H. tauto.
    + intros [<-|H]; [tauto|].
      apply IH in H. destruct H as (Hin & Hx & Hh).
      rewrite Set_has_add in Hh. apply orb_false_elim in Hh. tauto.
  - intros H. apply IH in H. tauto.
Qed.

(** The loop keeps a subsequence of the array, in the order of the
    array. *)
Lemma kept_subsequence (arr : list A) :
  forall seen, Subsequence (kept keyFn seen arr) arr.
Proof.
  induction arr as [|item rest IH]; intros seen; simpl.
  - constructor.
  - destruct (negb (ToBoolean (keyFn item)) || Set_has seen (keyFn item));
      constructor; apply IH.
Qed.

Lemma kept_NoDup (arr : list A) :
  (forall x, In x arr -> is_primitive (keyFn x) = true) ->
  forall seen, NoDup (map keyFn (kept keyFn seen arr)).
Proof.
  intros Hprim. induction arr as [|item rest IH]; intros seen; simpl.
  - constructor.
  - assert (Hrest : forall x, In x rest -> is_primitive (keyFn x) = true)
      by (intros; apply Hprim; now right).
    destruct (negb (ToBoolean (keyFn item)) || Set_has seen (keyFn item)).
    + now apply IH.
    + simpl. constructor; [|now apply IH].
      intros Hin. apply in_map_iff in Hin. destruct Hin as (x & Hk & Hx).
      apply kept_In in Hx. destruct Hx as (_ & _ & Hh).
      rewrite Set_has_add, Hk, SameValueZero_refl in Hh.
      * now rewrite orb_true_r in Hh.
      * apply Hprim. now left.
Qed.

Lemma filter_none {B : Type} (f : B -> bool) (l : list B) :
  (forall x, In x l -> f x = false) -> filter f l = [].
Proof.
  induction l as [|b l IH]; simpl; intros H; [reflexivity|].
  rewrite (H b) by now left. apply IH. intros; apply H; now right.
Qed.

(** Among the kept items, the ones with key [k] are the first item of
    the array with that key, and no other. *)
Lemma kept_first (k : value) (arr : list A) :
  ToBoolean k = true ->
  forall seen, Set_has seen k = false ->
    filter (fun x => SameValueZero (keyFn x) k) (kept keyFn seen arr)
    = match find (fun x => SameValueZero (keyFn x) k) arr with
      | Some q => [q]
      | None => []
      end.
Proof.
  intros Hk. induction arr as [|item rest IH]; intros seen Hs; simpl.
  - reflexivity.
  - destruct (SameValueZero (keyFn item) k) eqn:Hsame.
    + apply SameValueZero_true in Hsame as Heq.
      assert (Ht : ToBoolean (keyFn item) = true) by (now rewrite Heq).
      assert (Hn : Set_has seen (keyFn item) = false) by (now rewrite Heq).
      rewrite Ht, Hn. simpl. rewrite Hsame. f_equal.
      apply filter_none. intros x Hx.
      apply kept_In in Hx. destruct Hx as (_ & _ & Hh).
      rewrite Set_has_add in Hh. apply orb_false_elim in Hh.
      rewrite <- Heq. tauto.
    + destruct (negb (ToBoolean (keyFn item)) || Set_has seen (keyFn item)).
      * now apply IH.
      * simpl. rewrite Hsame. apply IH.
        rewrite Set_has_add, Hs, SameValueZero_sym, Hsame. reflexivity.
Qed.

End UniqByFacts.

(** ** [toRingCard] *)

Lemma opt_get_get (x : value) (k : string) : opt_get x k = get x k.
Proof. now destruct x. Qed.

Lemma js_or_truthy (a b : value) : ToBoolean a = true -> js_or a b = a.
Proof. unfold js_or. now intros ->. Qed.

Lemma ToBoolean_VStr (s : string) : ToBoolean (VStr s) = true <-> s <> "".
Proof.
  simpl. rewrite negb_true_iff. split.
  - intros H ->. discriminate.
  - intros H. apply string_eqb_neq. exact H.
Qed.

Lemma last_elem_cases (l : list string) :
  last_elem l = VUndefined \/ exists s, last_elem l = VStr s /\ In s l.
Proof.
  induction l as [|a [|b l] IH]; simpl.
  - now left.
  - right. exists a. split; [reflexivity | now left].
  - destruct IH as [IH | (s & IH & Hin)].
    + now left.
    + right. exists s. split; [exact IH | now right].
Qed.

(** A segment found by [id_from_url] is never empty. *)
Lemma id_from_url_segment (url : value) (seg : string) :
  id_from_url url = Normal (VStr seg) -> ToBoolean url = true -> seg <> "".
Proof.
  unfold id_from_url. intros H Hu. rewrite Hu in H.
  destruct (ToString url) as [u|e]; simpl in H; [|discriminate].
  destruct (last_elem_cases (filter nonempty (split_slash u))) as [E | (s & E & Hin)];
    rewrite E in H; [discriminate|].
  injection H as <-. apply filter_In in Hin. destruct Hin as [_ Hne].
  unfold nonempty in Hne. apply negb_true_iff, string_eqb_neq in Hne. exact Hne.
Qed.

(** The id derived for a record is always a string. *)
Lemma derive_id_string (product name url id : value) :
  derive_id product name url = Normal id -> exists s, id = VStr s.
Proof.
  unfold derive_id, id_from_sku, id_from_url, id_from_name.
  destruct (ToBoolean (opt_get product "sku")) eqn:Hsku.
  - destruct (ToString (get product "sku")) as [s|e]; simpl; [|discriminate].
    destruct (negb (s =? "")) eqn:Hs.
    + intros H. injection H as <-. now exists s.
    + destruct (ToBoolean url) eqn:Hurl.
      * destruct (ToString url) as [u|e]; simpl; [|discriminate].
        destruct (last_elem_cases (filter nonempty (split_slash u)))
          as [E | (seg & E & _)]; rewrite E; simpl.
        -- destruct name; try discriminate. intros H. injection H as <-. eauto.
        -- destruct (negb (seg =? "")).
           ++ intros H. injection H as <-. eauto.
           ++ destruct name; try discriminate. intros H. injection H as <-. eauto.
      * simpl. rewrite Hurl.
        destruct name; try discriminate. intros H. injection H as <-. eauto.
  - simpl. rewrite Hsku.
    destruct (ToBoolean url) eqn:Hurl.
    + destruct (ToString url) as [u|e]; simpl; [|discriminate].
      destruct (last_elem_cases (filter nonempty (split_slash u)))
        as [E | (seg & E & _)]; rewrite E; simpl.
      * destruct name; try discriminate. intros H. injection H as <-. eauto.
      * destruct (negb (seg =? "")).
        -- intros H. injection H as <-. eauto.
        -- destruct name; try discriminate. intros H. injection H as <-. eauto.
    + simpl. rewrite Hurl.
      destruct name; try discriminate. intros H. injection H as <-. eauto.
Qed.

(** What [toRingCard] returns is null or a record of the six fields,
    all strings but [model]. *)
Lemma toRingCard_record (product card : value) :
  toRingCard product = Normal card ->
  card = VNull \/
  exists id name href, card = ring (VStr id) (VStr name) (VStr href).
Proof.
  unfold toRingCard.
  destruct (negb (ToBoolean (js_or (opt_get product "name") (opt_get product "title")))).
  - intros H. injection H as <-. now left.
  - destruct (derive_id product _ (opt_get product "url")) as [id|e] eqn:Hid;
      simpl; [|discriminate].
    apply derive_id_string in Hid. destruct Hid as (s & ->).
    destruct (ToString _) as [n|e]; simpl; [|discriminate].
    destruct (ToBoolean (opt_get product "url")).
    + destruct (ToString (opt_get product "url")) as [u|e]; simpl; [|discriminate].
      intros H. injection H as <-. right. eauto.
    + simpl. intros H. injection H as <-. right. eauto.
Qed.

Lemma derive_id_sku (product name url : value) (s : string) :
  ToBoolean (opt_get product "sku") = true ->
  ToString (opt_get product "sku") = Normal s ->
  s <> "" ->
  derive_id product name url = Normal (VStr s).
Proof.
  intros Ht Hs Hne. unfold derive_id, id_from_sku.
  rewrite Ht, <- opt_get_get, Hs. simpl.
  apply string_eqb_neq in Hne. now rewrite Hne.
Qed.

(** When the sku gives nothing, the derivation goes on as if the first
    operand were not there. *)
Lemma derive_id_no_sku (product name url : value) :
  ToBoolean (opt_get product "sku") = false
  \/ ToString (opt_get product "sku") = Normal "" ->
  derive_id product name url
  = let* b := id_from_url url in
    if ToBoolean b then Normal b else id_from_name name.
Proof.
  unfold derive_id, id_from_sku. intros [Hf | He].
  - rewrite Hf. simpl. now rewrite Hf.
  - destruct (ToBoolean (opt_get product "sku")) eqn:Ht.
    + rewrite <- opt_get_get, He. reflexivity.
    + simpl. now rewrite Ht.
Qed.

(** C5, as amended.  The id of a record is derived in a fixed order.
    A sku that is truthy and whose string form is not empty gives the id,
    whatever the url is: the record of an item with such a sku, a string
    name and a string url has the stringified sku as its id.  A sku that
    is falsy (absent, null, false, 0, the empty string) or prints as the
    empty string is passed over: the id is then the last non-empty
    segment of the url between slashes, and when the url is falsy or has
    no such segment, the slug of the name, which only a string name has:
    any other name makes the derivation throw.  Without a usable name no
    id is derived at all, and the mapper returns null. *)
Theorem id_precedence (product : value) :
  let sku := opt_get product "sku" in
  let url := opt_get product "url" in
  let name := js_or (opt_get product "name") (opt_get product "title") in
  (forall s n u,
      ToBoolean sku = true -> ToString sku = Normal s -> s <> "" ->
      name = VStr n -> n <> "" -> url = VStr u ->
      toRingCard product = Normal (ring (VStr s) (VStr (trim n)) (VStr u)))
  /\ (forall s,
      ToBoolean sku = true -> ToString sku = Normal s -> s <> "" ->
      derive_id product name url = Normal (VStr s))
  /\ (forall u seg,
      ToBoolean sku = false \/ ToString sku = Normal "" ->
      ToBoolean url = true -> ToString url = Normal u ->
      last_elem (filter nonempty (split_slash u)) = VStr seg ->
      derive_id product name url = Normal (VStr seg))
  /\ (forall n,
      ToBoolean sku = false \/ ToString sku = Normal "" ->
      ToBoolean url = false
      \/ (exists u, ToString url = Normal u
                    /\ last_elem (filter nonempty (split_slash u)) = VUndefined) ->
      name = VStr n ->
      derive_id product name url = Normal (VStr (slugify n)))
  /\ (ToBoolean sku = false \/ ToString sku = Normal "" ->
      ToBoolean url = false
      \/ (exists u, ToString url = Normal u
                    /\ last_elem (filter nonempty (split_slash u)) = VUndefined) ->
      is_string name = false ->
      derive_id product name url = Throw TypeError)
  /\ (ToBoolean name = false -> toRingCard product = Normal VNull).
Proof.
  intros sku url name. split; [|split; [|split; [|split; [|split]]]].
  - intros s n u Ht Hs Hne Hn Hnn Hu. unfold toRingCard.
    fold name. fold url. rewrite Hn.
    apply ToBoolean_VStr in Hnn as Hnt. rewrite Hnt. simpl negb. cbv iota.
    rewrite <- Hn, (derive_id_sku product name url s Ht Hs Hne), Hn, Hu.
    simpl. destruct (u =? "") eqn:E; simpl; [|reflexivity].
    apply string_eqb_eq in E. now subst.
  - intros s. apply derive_id_sku.
  - clearbody name url.
    intros u seg Hsku Ht Hu Hseg. rewrite derive_id_no_sku by exact Hsku.
    assert (Hid : id_from_url url = Normal (VStr seg)).
    { unfold id_from_url. rewrite Ht, Hu. simpl. now rewrite Hseg. }
    rewrite Hid. simpl bind.
    apply id_from_url_segment in Hid as Hne; [|exact Ht].
    apply ToBoolean_VStr in Hne. simpl in Hne. now rewrite Hne.
  - clearbody name url.
    intros n Hsku Hurl Hn. rewrite derive_id_no_sku by exact Hsku.
    subst name. unfold id_from_url. destruct Hurl as [Hf | (u & Hu & Hseg)].
    + rewrite Hf. simpl. now rewrite Hf.
    + destruct (ToBoolean url) eqn:E; simpl.
      * rewrite Hu. simpl. now rewrite Hseg.
      * now rewrite E.
  - clearbody name url.
    intros Hsku Hurl Hn. rewrite derive_id_no_sku by exact Hsku.
    assert (Hname : id_from_name name = Throw TypeError)
      by (destruct name; try reflexivity; discriminate Hn).
    unfold id_from_url. destruct Hurl as [Hf | (u & Hu & Hseg)].
    + rewrite Hf. simpl. now rewrite Hf.
    + destruct (ToBoolean url) eqn:E; simpl.
      * rewrite Hu. simpl. now rewrite Hseg.
      * now rewrite E.
  - intros Hn. unfold toRingCard. fold name. now rewrite Hn.
Qed.

Lemma id_precedence_witness :
  toRingCard item_sku_url
  = Normal (ring (VStr "HALO-7") (VStr "Halo Ring")
              (VStr "https://www.thediamondguy.co.za/rings/halo")).
Proof.
  apply (proj1 (id_precedence item_sku_url)
           "HALO-7" "Halo Ring" "https://www.thediamondguy.co.za/rings/halo");
    first [ reflexivity | discriminate ].
Defined.

(** C5 as stated fails: an item that has the sku 0 and a url gets its id
    from the url, not the string form of its sku. *)
Lemma sku_zero_gives_url_id :
  get item_sku_zero "sku" = VNum (Num "0")
  /\ ToString (get item_sku_zero "sku") = Normal "0"
  /\ get item_sku_zero "url" = VStr "https://www.thediamondguy.co.za/rings/halo"
  /\ toRingCard item_sku_zero
     = Normal (ring (VStr "halo") (VStr "Halo Ring")
                 (VStr "https://www.thediamondguy.co.za/rings/halo"))
  /\ VStr "halo" <> VStr "0".
Proof. repeat split. discriminate. Qed.

(** C9.  An item named [Classic Solitaire!!] that has neither sku nor
    url maps to a record whose id is [classic-solitaire]. *)
Theorem slug_fallback (product : value) :
  opt_get product "name" = VStr "Classic Solitaire!!" ->
  opt_get product "sku" = VUndefined ->
  opt_get product "url" = VUndefined ->
  toRingCard product
  = Normal (ring (VStr "classic-solitaire") (VStr "Classic Solitaire!!") (VStr ""))
  /\ slugify "Classic Solitaire!!" = "classic-solitaire".
Proof.
  intros Hn Hs Hu. split; [|reflexivity].
  unfold toRingCard, derive_id, id_from_sku.
  rewrite Hn, Hs, Hu. reflexivity.
Qed.

Lemma slug_fallback_witness :
  toRingCard item_name_only
  = Normal (ring (VStr "classic-solitaire") (VStr "Classic Solitaire!!") (VStr ""))
  /\ slugify "Classic Solitaire!!" = "classic-solitaire".
Proof. apply (slug_fallback item_name_only); reflexivity. Defined.

(** ** Names without letters or digits *)

(** Comparisons of code units, decided by arithmetic. *)
Ltac units :=
  unfold slug_source, is_alnum, is_slug_char, is_white, in_range in *;
  rewrite ?orb_true_iff, ?orb_false_iff, ?andb_true_iff, ?andb_false_iff,
    ?negb_true_iff, ?negb_false_iff, ?N.leb_le, ?N.leb_gt, ?N.eqb_eq,
    ?N.eqb_neq in *;
  lia.

(** The lower case of a code unit that is not a [slug_source] is one
    code unit outside [[a-z0-9]]. *)
Lemma lower_char_not_slug (c : N) :
  slug_source c = false ->
  exists d, lower_char c = String d "" /\ is_slug_char d = false.
Proof.
  intros H.
  destruct (in_range 65 90 c || in_range 192 222 c && negb (c =? 215)%N)
    eqn:E1.
  - exists (c + 32)%N. unfold lower_char. rewrite E1.
    split; [reflexivity|]. units.
  - exists c. unfold lower_char. rewrite E1.
    assert (E2 : (c =? 304)%N = false) by units.
    assert (E3 : (c =? 8490)%N = false) by units.
    rewrite E2, E3. split; [reflexivity|]. units.
Qed.

(** The lower case of a [slug_source] has a character of [[a-z0-9]] at
    its head. *)
Lemma lower_char_slug (c : N) :
  slug_source c = true ->
  exists d t, lower_char c = String d t /\ is_slug_char d = true.
Proof.
  intros H.
  destruct (c =? 304)%N eqn:E2; [apply N.eqb_eq in E2; subst c;
    exists "i"%char; eexists; split; reflexivity|].
  destruct (c =? 8490)%N eqn:E3; [apply N.eqb_eq in E3; subst c;
    exists "k"%char; eexists; split; reflexivity|].
  destruct (in_range 65 90 c || in_range 192 222 c && negb (c =? 215)%N)
    eqn:E1.
  - exists (c + 32)%N, "". unfold lower_char. rewrite E1.
    split; [reflexivity|]. units.
  - exists c, "". unfold lower_char. rewrite E1, E2, E3.
    split; [reflexivity|]. units.
Qed.

Lemma replace_runs_no_alnum (s : string) :
  no_slug_source s = true ->
  replace_runs true (toLowerCase s) = ""
  /\ (replace_runs false (toLowerCase s) = ""
      \/ replace_runs false (toLowerCase s) = "-").
Proof.
  induction s as [|c s IH]; cbn [no_slug_source toLowerCase]; intros H.
  - split; [reflexivity | now left].
  - apply andb_true_iff in H. destruct H as [Hc Hs].
    apply negb_true_iff, lower_char_not_slug in Hc.
    destruct Hc as (d & -> & Hd). cbn [append replace_runs]. rewrite Hd.
    destruct (IH Hs) as [IH1 _]. rewrite IH1. split; [reflexivity | now right].
Qed.

Lemma slugify_no_alnum (s : string) : no_slug_source s = true -> slugify s = "".
Proof.
  intros H. unfold slugify.
  destruct (replace_runs_no_alnum s H) as [_ [E | E]]; now rewrite E.
Qed.

Lemma has_slug_char_app (s t : string) :
  has_slug_char (s ++ t) = has_slug_char s || has_slug_char t.
Proof.
  induction s as [|c s IH]; [reflexivity|].
  cbn [append has_slug_char]. now rewrite IH, orb_assoc.
Qed.

Lemma lower_char_has_slug (c : N) :
  has_slug_char (lower_char c) = slug_source c.
Proof.
  destruct (slug_source c) eqn:E.
  - destruct (lower_char_slug c E) as (d & t & -> & Hd).
    cbn [has_slug_char]. now rewrite Hd.
  - destruct (lower_char_not_slug c E) as (d & -> & Hd).
    cbn [has_slug_char]. now rewrite Hd.
Qed.

Lemma toLowerCase_has_slug (s : string) :
  has_slug_char (toLowerCase s) = negb (no_slug_source s).
Proof.
  induction s as [|c s IH]; [reflexivity|].
  cbn [toLowerCase no_slug_source].
  rewrite has_slug_char_app, lower_char_has_slug, IH, negb_andb.
  now rewrite negb_involutive.
Qed.

Lemma replace_runs_has_slug (t : string) :
  forall in_run, has_slug_char (replace_runs in_run t) = has_slug_char t.
Proof.
  induction t as [|c t IH]; intros in_run; [reflexivity|].
  cbn [replace_runs has_slug_char]. destruct (is_slug_char c) eqn:Ec.
  - cbn [has_slug_char]. now rewrite Ec.
  - destruct in_run; [apply IH|].
    cbn [has_slug_char]. rewrite IH. reflexivity.
Qed.

Lemma strip_edges_has_slug (t : string) :
  forall at_start, has_slug_char (strip_edges at_start t) = has_slug_char t.
Proof.
  induction t as [|c t IH]; intros at_start; [reflexivity|].
  cbn [strip_edges has_slug_char].
  destruct ((c =? "-")%char && (at_start || (t =? ""))) eqn:E.
  - apply andb_true_iff in E. destruct E as [E _].
    apply N.eqb_eq in E. subst c. rewrite IH. reflexivity.
  - cbn [has_slug_char]. now rewrite IH.
Qed.

(** The slug of a name is empty exactly when no code unit of the name
    is a [slug_source]. *)
Lemma slugify_empty_iff (n : string) :
  slugify n = "" <-> no_slug_source n = true.
Proof.
  split; [|apply slugify_no_alnum].
  intros H. destruct (no_slug_source n) eqn:E; [reflexivity|].
  pose proof (toLowerCase_has_slug n) as Hs. rewrite E in Hs.
  rewrite <- (replace_runs_has_slug _ false) in Hs.
  rewrite <- (strip_edges_has_slug _ true) in Hs.
  fold (slugify n) in Hs. rewrite H in Hs. discriminate Hs.
Qed.

Lemma replace_runs_gap (w t : string) (in_run : bool) :
  w <> "" -> has_slug_char w = false ->
  replace_runs in_run (w ++ t)
  = ((if in_run then "" else "-") ++ replace_runs true t)%string.
Proof.
  revert in_run. induction w as [|c w IH]; intros in_run Hne Hw;
    [now elim Hne|].
  cbn [has_slug_char] in Hw. apply orb_false_iff in Hw.
  destruct Hw as [Hc Hw]. cbn [append replace_runs]. rewrite Hc.
  destruct w as [|d w].
  - now destruct in_run.
  - assert (Hd : String d w <> "") by discriminate.
    pose proof (IH true Hd Hw) as E. cbn [append] in E.
    destruct in_run; cbn [append]; now rewrite E.
Qed.

Lemma replace_runs_app (r t u : string) :
  (forall in_run, replace_runs in_run t = replace_runs in_run u) ->
  forall in_run, replace_runs in_run (r ++ t) = replace_runs in_run (r ++ u).
Proof.
  intros H. induction r as [|c r IH]; intros in_run; [apply H|].
  cbn [append replace_runs].
  destruct (is_slug_char c); [now rewrite IH|].
  destruct in_run; now rewrite IH.
Qed.

(** The slug does not depend on the lower case the host gives to the
    code units that the table of [lower_char] leaves as they are. *)
Lemma slugify_any_lowering (s t : string) :
  lowering s t ->
  strip_edges true (replace_runs false t) = slugify s.
Proof.
  intros H. unfold slugify. f_equal.
  assert (Hall : forall in_run,
            replace_runs in_run t = replace_runs in_run (toLowerCase s)).
  { induction H as [|c s t _ IH|c w s t Hc Hs Hne Hw _ IH]; intros in_run.
    - reflexivity.
    - cbn [toLowerCase]. now apply replace_runs_app.
    - cbn [toLowerCase].
      destruct (lower_char_not_slug c Hs) as (d & -> & Hd).
      rewrite (replace_runs_gap w t in_run Hne Hw).
      cbn [append replace_runs]. rewrite Hd.
      destruct in_run; cbn [append]; [apply IH | f_equal; apply IH]. }
  apply Hall.
Qed.

(** An item that has a name and neither sku nor url takes the slug of
    its name as id. *)
Lemma toRingCard_name_only (product : value) (n : string) :
  opt_get product "name" = VStr n -> n <> "" ->
  opt_get product "sku" = VUndefined ->
  opt_get product "url" = VUndefined ->
  toRingCard product
  = Normal (ring (VStr (slugify n)) (VStr (trim n)) (VStr "")).
Proof.
  intros Hn Hne Hs Hu.
  unfold toRingCard, derive_id, id_from_sku.
  rewrite Hn, Hs, Hu. apply ToBoolean_VStr in Hne as Ht.
  now rewrite (js_or_truthy _ _ Ht), Ht.
Qed.

(** ** [normalizeToItems] *)

Lemma pushAny_falsy (x : value) : ToBoolean x = false -> pushAny x = [].
Proof. destruct x; simpl; intros H; try reflexivity; try discriminate; now rewrite H. Qed.

Lemma pushAny_obj (props : list (string * value)) :
  pushAny (VObj props)
  = pushAny (get (VObj props) "@graph") ++ [VObj props].
Proof.
  simpl. f_equal. induction props as [|[k v] rest IH].
  - reflexivity.
  - simpl. destruct (k =? "@graph").
    + destruct (ToBoolean v) eqn:Hv; [reflexivity|].
      symmetry. now apply pushAny_falsy.
    + exact IH.
Qed.

(** C6.  [normalizeToItems] gives nothing for null and undefined,
    flattens an array element by element, recursively, drops booleans,
    numbers and strings, and for an object gives the items reached
    through its [@graph] property followed by the object itself. *)
Theorem normalize_flattening :
  normalizeToItems VNull = [] /\ normalizeToItems VUndefined = []
  /\ (forall elems,
        normalizeToItems (VArr elems) = flat_map normalizeToItems elems)
  /\ (forall x, is_scalar x = true -> normalizeToItems x = [])
  /\ (forall props,
        normalizeToItems (VObj props)
        = normalizeToItems (get (VObj props) "@graph") ++ [VObj props])
  /\ (forall props,
        In (VObj props) (normalizeToItems (VObj props))
        /\ incl (normalizeToItems (get (VObj props) "@graph"))
                (normalizeToItems (VObj props))).
Proof.
  unfold normalizeToItems. repeat split.
  - intros x Hx. destruct x; try discriminate; simpl.
    + now destruct b.
    + now destruct (negb _).
    + now destruct (negb _).
  - intros props. apply pushAny_obj.
  - rewrite pushAny_obj. apply in_or_app. right. now left.
  - rewrite pushAny_obj. intros y Hy. apply in_or_app. now left.
Qed.

(** ** [extractJsonLd] *)

Lemma literal_ci_length (pat s r : string) :
  literal_ci pat s = Some r ->
  String.length s = String.length pat + String.length r.
Proof.
  revert s. induction pat as [|p pat IH]; intros s; simpl.
  - intros H. now injection H as <-.
  - destruct s as [|c s]; [discriminate|].
    destruct (fold_case p =? fold_case c)%char; [|discriminate].
    intros H. apply IH in H. simpl. now rewrite H.
Qed.

Lemma quote_length (s r : string) :
  quote s = Some r -> String.length s = S (String.length r).
Proof.
  destruct s as [|c s]; simpl; [discriminate|].
  destruct (_ || _); [|discriminate]. intros H. now injection H as <-.
Qed.

Lemma lazy_body_shorter (s b rest : string) :
  lazy_body s = Some (b, rest) -> String.length rest < String.length s.
Proof.
  revert b. induction s as [|c s IH]; intros b.
  - discriminate.
  - cbn [lazy_body].
    destruct (literal_ci "</script>" (String c s)) as [r|] eqn:E.
    + intros H. injection H as _ <-. apply literal_ci_length in E.
      simpl String.length in *. lia.
    + destruct (lazy_body s) as [[b' rest']|]; [|discriminate].
      cbn [obind fst snd]. intros H. injection H as _ <-.
      specialize (IH b' eq_refl). simpl String.length. lia.
Qed.

Lemma tag_close_shorter (s b rest : string) :
  tag_close s = Some (b, rest) -> String.length rest < String.length s.
Proof.
  induction s as [|c s IH]; [discriminate|].
  cbn [tag_close]. destruct (c =? ">")%char.
  - intros H. apply lazy_body_shorter in H. simpl String.length. lia.
  - intros H. apply IH in H. simpl String.length. lia.
Qed.

Lemma type_attr_shorter (s b rest : string) :
  type_attr s = Some (b, rest) -> String.length rest < String.length s.
Proof.
  unfold type_attr.
  destruct (literal_ci "type=" s) as [s1|] eqn:E1; [|discriminate].
  cbn [obind].
  destruct (quote s1) as [s2|] eqn:E2; [|discriminate].
  cbn [obind].
  destruct (literal_ci "application/ld+json" s2) as [s3|] eqn:E3; [|discriminate].
  cbn [obind].
  destruct (quote s3) as [s4|] eqn:E4; [|discriminate].
  cbn [obind].
  intros H. apply tag_close_shorter in H.
  apply literal_ci_length in E1, E3. apply quote_length in E2, E4.
  simpl String.length in *. lia.
Qed.

Lemma tag_attrs_shorter (s b rest : string) :
  tag_attrs s = Some (b, rest) -> String.length rest < String.length s.
Proof.
  induction s as [|c s IH].
  - apply type_attr_shorter.
  - cbn [tag_attrs]. destruct (c =? ">")%char.
    + apply (type_attr_shorter (String c s)).
    + destruct (tag_attrs s) as [r|].
      * intros H. injection H as ->. specialize (IH eq_refl).
        simpl String.length. lia.
      * apply (type_attr_shorter (String c s)).
Qed.

(** A match takes at least one character off the text. *)
Lemma re_exec_shorter (s b rest : string) :
  re_exec s = Some (b, rest) -> String.length rest < String.length s.
Proof.
  assert (Hhere : forall s, match_here s = Some (b, rest) ->
                            String.length rest < String.length s).
  { intros s0. unfold match_here.
    destruct (literal_ci "<script" s0) as [s1|] eqn:E; [|discriminate].
    cbn [obind]. intros H. apply tag_attrs_shorter in H.
    apply literal_ci_length in E. simpl String.length in *. lia. }
  induction s as [|c s IH].
  - discriminate.
  - cbn [re_exec]. destruct (match_here (String c s)) as [r|] eqn:E.
    + intros H. injection H as ->. now apply Hhere.
    + intros H. apply IH in H. simpl String.length. lia.
Qed.

(** *** Where a match lies in the text *)

Lemma literal_ci_split (pat s r : string) :
  literal_ci pat s = Some r ->
  exists p, s = (p ++ r)%string /\ literal_ci pat p = Some "".
Proof.
  revert s. induction pat as [|a pat IH]; intros s; cbn [literal_ci].
  - intros H. injection H as <-. now exists "".
  - destruct s as [|c s]; [discriminate|].
    destruct (fold_case a =? fold_case c)%char eqn:E; [|discriminate].
    intros H. destruct (IH s H) as (p & -> & Hp).
    exists (String c p). split; [reflexivity|].
    cbn [literal_ci]. now rewrite E.
Qed.

Lemma literal_ci_more (pat p r : string) :
  literal_ci pat p = Some "" -> literal_ci pat (p ++ r) = Some r.
Proof.
  revert p. induction pat as [|a pat IH]; intros p; cbn [literal_ci].
  - intros H. now injection H as ->.
  - destruct p as [|c p]; [discriminate|]. cbn [append literal_ci].
    destruct (fold_case a =? fold_case c)%char; [|discriminate]. apply IH.
Qed.

Lemma append_assoc (a b c : string) :
  ((a ++ b) ++ c = a ++ (b ++ c))%string.
Proof. induction a as [|x a IH]; simpl; [reflexivity | now rewrite IH]. Qed.

Lemma lazy_body_split (s b rest : string) :
  lazy_body s = Some (b, rest) ->
  exists closing,
    s = (b ++ closing ++ rest)%string
    /\ literal_ci "</script>" closing = Some "".
Proof.
  revert b. induction s as [|c s IH]; intros b.
  - discriminate.
  - cbn [lazy_body].
    destruct (literal_ci "</script>" (String c s)) as [r|] eqn:E.
    + intros H. injection H as <- <-.
      apply literal_ci_split in E. destruct E as (p & E & Hp).
      exists p. split; [exact E | exact Hp].
    + destruct (lazy_body s) as [[b' rest']|]; [|discriminate].
      cbn [obind fst snd]. intros H. injection H as <- <-.
      destruct (IH b' eq_refl) as (closing & -> & Hc).
      exists closing. split; [reflexivity | exact Hc].
Qed.

Lemma tag_close_split (s b rest : string) :
  tag_close s = Some (b, rest) ->
  exists t closing,
    s = (t ++ b ++ closing ++ rest)%string
    /\ literal_ci "</script>" closing = Some "".
Proof.
  induction s as [|c s IH]; [discriminate|].
  cbn [tag_close]. destruct (c =? ">")%char.
  - intros H. apply lazy_body_split in H. destruct H as (closing & -> & Hc).
    exists (String c ""), closing. split; [reflexivity | exact Hc].
  - intros H. destruct (IH H) as (t & closing & -> & Hc).
    exists (String c t), closing. split; [reflexivity | exact Hc].
Qed.

Lemma type_attr_split (s b rest : string) :
  type_attr s = Some (b, rest) ->
  exists t closing,
    s = (t ++ b ++ closing ++ rest)%string
    /\ literal_ci "</script>" closing = Some "".
Proof.
  unfold type_attr.
  destruct (literal_ci "type=" s) as [s1|] eqn:E1; [|discriminate].
  cbn [obind].
  destruct (quote s1) as [s2|] eqn:E2; [|discriminate].
  cbn [obind].
  destruct (literal_ci "application/ld+json" s2) as [s3|] eqn:E3; [|discriminate].
  cbn [obind].
  destruct (quote s3) as [s4|] eqn:E4; [|discriminate].
  cbn [obind].
  intros H. apply tag_close_split in H. destruct H as (t & closing & -> & Hc).
  apply literal_ci_split in E1, E3.
  destruct E1 as (p1 & -> & _). destruct E3 as (p3 & -> & _).
  destruct s1 as [|q1 s1]; [discriminate|]. cbn [quote] in E2.
  destruct (_ || _) in E2; [|discriminate]. injection E2 as ->.
  destruct s3 as [|q3 s3]; [discriminate|]. cbn [quote] in E4.
  destruct (_ || _) in E4; [|discriminate]. injection E4 as ->.
  exists (p1 ++ String q1 (p3 ++ String q3 t))%string, closing.
  split; [|exact Hc].
  rewrite append_assoc. cbn [append]. rewrite append_assoc. reflexivity.
Qed.

Lemma tag_attrs_split (s b rest : string) :
  tag_attrs s = Some (b, rest) ->
  exists t closing,
    s = (t ++ b ++ closing ++ rest)%string
    /\ literal_ci "</script>" closing = Some "".
Proof.
  induction s as [|c s IH].
  - apply type_attr_split.
  - cbn [tag_attrs]. destruct (c =? ">")%char.
    + apply (type_attr_split (String c s)).
    + destruct (tag_attrs s) as [r|].
      * intros H. injection H as ->.
        destruct (IH eq_refl) as (t & closing & -> & Hc).
        exists (String c t), closing. split; [reflexivity | exact Hc].
      * apply (type_attr_split (String c s)).
Qed.

(** A match is a stretch of the text: what comes before it, an opening
    tag that starts with [<script], the captured body, a closing tag,
    and the text the search goes on with. *)
Lemma re_exec_split (s b rest : string) :
  re_exec s = Some (b, rest) ->
  exists before opening closing,
    s = (before ++ opening ++ b ++ closing ++ rest)%string
    /\ literal_ci "<script" opening <> None
    /\ literal_ci "</script>" closing = Some "".
Proof.
  assert (Hhere : forall s, match_here s = Some (b, rest) ->
            exists opening closing,
              s = (opening ++ b ++ closing ++ rest)%string
              /\ literal_ci "<script" opening <> None
              /\ literal_ci "</script>" closing = Some "").
  { intros s0. unfold match_here.
    destruct (literal_ci "<script" s0) as [s1|] eqn:E; [|discriminate].
    cbn [obind]. intros H. apply tag_attrs_split in H.
    destruct H as (t & closing & -> & Hc).
    apply literal_ci_split in E. destruct E as (p & -> & Hp).
    exists (p ++ t)%string, closing. repeat split.
    - now rewrite append_assoc.
    - now rewrite (literal_ci_more _ _ t Hp).
    - exact Hc. }
  induction s as [|c s IH].
  - discriminate.
  - cbn [re_exec]. destruct (match_here (String c s)) as [r|] eqn:E.
    + intros H. injection H as ->. apply Hhere in E.
      destruct E as (opening & closing & E & H1 & H2).
      exists "", opening, closing. repeat split; assumption.
    + intros H. destruct (IH H) as (before & opening & closing & -> & H1 & H2).
      exists (String c before), opening, closing. repeat split; assumption.
Qed.

(** The loop never stops for want of fuel: any amount from the length
    of the text on gives the same matches. *)
Lemma captures_fuel (fuel : nat) :
  forall html fuel',
    String.length html <= fuel -> String.length html <= fuel' ->
    captures fuel html = captures fuel' html.
Proof.
  induction fuel as [|fuel IH]; intros html fuel' H H'.
  - destruct html; [|simpl in H; lia]. now destruct fuel'.
  - destruct fuel' as [|fuel'].
    + destruct html; [reflexivity | simpl in H'; lia].
    + simpl. destruct (re_exec html) as [[m1 rest]|] eqn:E; [|reflexivity].
      apply re_exec_shorter in E. f_equal. apply IH; lia.
Qed.

Section ExtractFacts.

Variable JSON_parse : string -> completion value.

Lemma extract_loop_captures (fuel : nat) :
  forall html out,
    extract_loop JSON_parse fuel html out
    = out ++ filter ToBoolean
               (map (fun m1 => safeJsonParse JSON_parse (trim m1))
                    (captures fuel html)).
Proof.
  induction fuel as [|fuel IH]; intros html out; simpl.
  - now rewrite app_nil_r.
  - destruct (re_exec html) as [[m1 rest]|]; simpl.
    + destruct (ToBoolean (safeJsonParse JSON_parse (trim m1))); simpl.
      * rewrite IH, <- app_assoc. reflexivity.
      * apply IH.
    + now rewrite app_nil_r.
Qed.

Lemma extractJsonLd_captures (html : string) :
  extractJsonLd JSON_parse html
  = filter ToBoolean
      (map (fun m1 => safeJsonParse JSON_parse (trim m1))
           (captures (String.length html) html)).
Proof. unfold extractJsonLd. now rewrite extract_loop_captures. Qed.

End ExtractFacts.

(** C8, as amended.  A page in which the pattern matches nowhere gives
    the empty array.  In general the array holds, in the order of the
    page, the values parsed from the trimmed bodies of the matched
    blocks, the falsy ones left out: a body that fails to parse counts
    as null and is left out without an error, and so is a body that
    parses to null, false, 0 or the empty string.  The loop does not
    depend on its fuel, and each match is a stretch of the page that
    lies before the text in which the later matches are looked for. *)
Theorem extractJsonLd_blocks (JSON_parse : string -> completion value)
  (html : string) :
  (re_exec html = None -> extractJsonLd JSON_parse html = [])
  /\ extractJsonLd JSON_parse html
     = filter ToBoolean
         (map (fun m1 => safeJsonParse JSON_parse (trim m1))
              (captures (String.length html) html))
  /\ (forall m1 e,
        JSON_parse (trim m1) = Throw e ->
        safeJsonParse JSON_parse (trim m1) = VNull
        /\ filter ToBoolean [safeJsonParse JSON_parse (trim m1)] = [])
  /\ (forall fuel,
        String.length html <= fuel ->
        captures fuel html = captures (String.length html) html)
  /\ (forall fuel m1 rest,
        re_exec html = Some (m1, rest) ->
        captures (S fuel) html = m1 :: captures fuel rest
        /\ exists before opening closing,
             html = (before ++ opening ++ m1 ++ closing ++ rest)%string
             /\ literal_ci "<script" opening <> None
             /\ literal_ci "</script>" closing = Some "").
Proof.
  split; [|split; [|split; [|split]]].
  - intros H. rewrite extractJsonLd_captures.
    destruct (String.length html); simpl; [reflexivity | now rewrite H].
  - apply extractJsonLd_captures.
  - intros m1 e H. unfold safeJsonParse. now rewrite H.
  - intros fuel H. apply captures_fuel; [exact H | lia].
  - intros fuel m1 rest H. split.
    + cbn [captures]. now rewrite H.
    + now apply re_exec_split.
Qed.

Lemma extractJsonLd_blocks_witness :
  extractJsonLd read_json "<html><head><script>var x = 1;</script></head></html>"
  = [].
Proof.
  apply (proj1 (extractJsonLd_blocks read_json
                  "<html><head><script>var x = 1;</script></head></html>")).
  reflexivity.
Defined.

(** C8 as stated fails: the one block of [page_false] parses, to the
    value false, and is not returned. *)
Lemma parsed_false_is_skipped :
  captures (String.length page_false) page_false = [" false "]
  /\ read_json (trim " false ") = Normal (VBool false)
  /\ extractJsonLd read_json page_false = [].
Proof. repeat split. Qed.

(** * Properties of a run *)

Lemma mapped_record (card : value) :
  mapped card ->
  exists id name href, card = ring (VStr id) (VStr name) (VStr href).
Proof.
  intros (product & H & Ht). apply toRingCard_record in H.
  destruct H as [-> | H]; [discriminate | exact H].
Qed.

Lemma mapped_id_string (card : value) :
  mapped card -> exists s, id_of card = VStr s.
Proof.
  intros H. apply mapped_record in H. destruct H as (id & n & h & ->).
  now exists id.
Qed.

Lemma mapped_output_record (card : value) :
  mapped card -> output_record card = true.
Proof.
  intros H. apply mapped_record in H. now destruct H as (id & n & h & ->).
Qed.

Section RunFacts.

Variable JSON_parse : string -> completion value.
Variable fetch : string -> completion response.

Lemma fetchText_log (url : string) (log : list string) :
  snd (fetchText fetch url log) = log ++ [url].
Proof. reflexivity. Qed.

Lemma scrape_page_log (u : string) (log : list string) :
  snd (scrape_page JSON_parse fetch u log) = log ++ [u].
Proof. reflexivity. Qed.

(** The loop requests every page it is given, once, in order, whatever
    comes back. *)
Lemma collect_log (pages : list string) :
  forall products log,
    snd (collect JSON_parse fetch pages products log) = log ++ pages.
Proof.
  induction pages as [|u rest IH]; intros products log; cbn [collect].
  - now rewrite app_nil_r.
  - pose proof (scrape_page_log u log) as Hlog.
    destruct (scrape_page JSON_parse fetch u log) as [r log'].
    simpl in Hlog. subst log'.
    destruct r as [[card|]|e]; rewrite IH, <- app_assoc; reflexivity.
Qed.

(** A record that the loop pushes was returned by [toRingCard]. *)
Lemma scrape_page_mapped (u : string) (log : list string) (card : value) :
  fst (scrape_page JSON_parse fetch u log) = Normal (Some card) ->
  mapped card.
Proof.
  unfold scrape_page.
  destruct (fetchText fetch u log) as [[html|e] log']; cbn [fst bind];
    [|discriminate].
  set (product := find_type "Product" (page_items JSON_parse html)).
  destruct (negb (ToBoolean product)); [discriminate|].
  destruct (toRingCard product) as [c|e] eqn:E; cbn [bind]; [|discriminate].
  destruct (ToBoolean c) eqn:Hc; [|discriminate].
  intros H. injection H as <-. now exists product.
Qed.

Lemma collect_mapped (pages : list string) :
  forall products log,
    Forall mapped products ->
    Forall mapped (fst (collect JSON_parse fetch pages products log)).
Proof.
  induction pages as [|u rest IH]; intros products log H; cbn [collect].
  - exact H.
  - pose proof (scrape_page_mapped u log) as Hm.
    destruct (scrape_page JSON_parse fetch u log) as [r log'].
    destruct r as [[card|]|e]; apply IH; try exact H.
    apply Forall_app. split; [exact H|].
    constructor; [|constructor]. now apply Hm.
Qed.

Lemma collected_mapped : Forall mapped (collected JSON_parse fetch).
Proof.
  unfold collected.
  destruct (fetchText fetch SITE []) as [[homeHtml|e] log].
  - apply collect_mapped. constructor.
  - constructor.
Qed.

(** A run fetches the home page; when that fails it ends there, and
    otherwise it goes on to the first 60 product pages and comes to the
    rings of the records it collected. *)
Lemma main_run :
  match fst (fetchText fetch SITE []) with
  | Normal homeHtml =>
      main JSON_parse fetch
      = {| fetched := SITE :: firstn 60 (product_pages JSON_parse homeHtml);
           outcome := Normal (rings_of (collected JSON_parse fetch)) |}
  | Throw e =>
      main JSON_parse fetch = {| fetched := [SITE]; outcome := Throw e |}
  end.
Proof.
  unfold main, collected, product_pages.
  pose proof (fetchText_log SITE []) as Hlog.
  destruct (fetchText fetch SITE []) as [[homeHtml|e] log];
    simpl in Hlog; subst log; cbn [fst]; [|reflexivity].
  pose proof (collect_log
                (firstn 60 (uniqBy (candidate_urls JSON_parse homeHtml) VStr))
                [] [SITE]) as Hc.
  destruct (collect JSON_parse fetch _ [] [SITE]) as [products log'].
  simpl in Hc. subst log'. reflexivity.
Qed.

Lemma main_written (rings : list value) :
  outcome (main JSON_parse fetch) = Normal rings ->
  rings = rings_of (collected JSON_parse fetch).
Proof.
  pose proof main_run as H.
  destruct (fst (fetchText fetch SITE [])); rewrite H; cbn [outcome].
  - intros E. now injection E.
  - discriminate.
Qed.

End RunFacts.

Lemma kept_nil {A : Type} (keyFn : A -> value) (arr : list A) :
  kept keyFn [] arr = [] <-> Forall (fun x => ToBoolean (keyFn x) = false) arr.
Proof.
  split.
  - induction arr as [|item rest IH]; simpl; intros H; constructor.
    + destruct (ToBoolean (keyFn item)); [discriminate H | reflexivity].
    + apply IH. destruct (ToBoolean (keyFn item)); [discriminate H | exact H].
  - induction 1 as [|item rest Hitem _ IH]; simpl; [reflexivity|].
    now rewrite Hitem.
Qed.

Lemma uniqBy_strings_NoDup (urls : list string) : NoDup (uniqBy urls VStr).
Proof.
  rewrite uniqBy_kept.
  apply (NoDup_map_inv VStr). now apply kept_NoDup.
Qed.

(** C7.  Every run requests the home page first and then at most 60
    product pages.  When the home page is fetched, the product pages
    requested are the first 60 of the candidate product URLs, duplicates
    removed, in the order in which the home page lists them, each once,
    whatever the number of candidates (100, say); when the home page
    cannot be fetched, none is requested. *)
Theorem product_fetch_cap (JSON_parse : string -> completion value)
  (fetch : string -> completion response) :
  let requested := fetched (main JSON_parse fetch) in
  hd_error requested = Some SITE
  /\ List.length (tl requested) <= 60
  /\ (forall homeHtml,
        fst (fetchText fetch SITE []) = Normal homeHtml ->
        NoDup (product_pages JSON_parse homeHtml)
        /\ Subsequence (product_pages JSON_parse homeHtml)
                       (candidate_urls JSON_parse homeHtml)
        /\ tl requested = firstn 60 (product_pages JSON_parse homeHtml)
        /\ (List.length (product_pages JSON_parse homeHtml) = 100 ->
            List.length (tl requested) = 60))
  /\ (forall e, fst (fetchText fetch SITE []) = Throw e -> tl requested = []).
Proof.
  cbv zeta. pose proof (main_run JSON_parse fetch) as H.
  destruct (fst (fetchText fetch SITE [])) as [homeHtml|e]; rewrite H;
    cbn [fetched hd_error tl].
  - split; [reflexivity|]. split; [apply firstn_le_length|].
    split; [|discriminate].
    intros h E. injection E as <-. repeat split.
    + apply uniqBy_strings_NoDup.
    + unfold product_pages. rewrite uniqBy_kept. apply kept_subsequence.
    + intros H100. rewrite length_firstn, H100. reflexivity.
  - split; [reflexivity|]. split; [simpl; lia|].
    split; [discriminate | reflexivity].
Qed.

Lemma product_fetch_cap_witness :
  List.length (candidate_urls read_json (home_listing 100)) = 100
  /\ tl (fetched (main read_json (site_listing 100)))
     = firstn 60 (product_pages read_json (home_listing 100))
  /\ List.length (tl (fetched (main read_json (site_listing 100)))) = 60.
Proof.
  assert (Hhome : fst (fetchText (site_listing 100) SITE [])
                  = Normal (home_listing 100))
    by (vm_compute; reflexivity).
  pose proof (product_fetch_cap read_json (site_listing 100)) as H.
  cbv zeta in H. destruct H as (_ & _ & H & _).
  specialize (H (home_listing 100) Hhome).
  destruct H as (_ & _ & Htl & H100).
  split; [vm_compute; reflexivity|]. split; [exact Htl|].
  apply H100. vm_compute. reflexivity.
Defined.

(** C2.  A run that collects no record writes the two placeholders,
    [classic-solitaire] then [halo-ensemble], in that order: once its
    home page is fetched it reaches the write with exactly these two,
    so the array such a run writes is never empty. *)
Theorem placeholder_fallback (JSON_parse : string -> completion value)
  (fetch : string -> completion response) :
  collected JSON_parse fetch = [] ->
  (forall homeHtml,
      fst (fetchText fetch SITE []) = Normal homeHtml ->
      outcome (main JSON_parse fetch) = Normal placeholders)
  /\ (forall rings,
        outcome (main JSON_parse fetch) = Normal rings ->
        rings = placeholders
        /\ map id_of rings = [VStr "classic-solitaire"; VStr "halo-ensemble"]
        /\ List.length rings = 2
        /\ rings <> []).
Proof.
  intros E. split.
  - intros homeHtml Hh. pose proof (main_run JSON_parse fetch) as H.
    rewrite Hh in H. rewrite H. cbn [outcome]. now rewrite E.
  - intros rings H. apply main_written in H. subst rings. rewrite E.
    repeat split. discriminate.
Qed.

Lemma placeholder_fallback_witness :
  collected read_json site_bare = []
  /\ outcome (main read_json site_bare) = Normal placeholders
  /\ map id_of placeholders
     = [VStr "classic-solitaire"; VStr "halo-ensemble"]
  /\ placeholders <> [].
Proof.
  assert (E : collected read_json site_bare = [])
    by (vm_compute; reflexivity).
  destruct (placeholder_fallback read_json site_bare E) as [Hrun Hrings].
  assert (H : outcome (main read_json site_bare) = Normal placeholders)
    by (apply (Hrun "<html><head></head><body></body></html>");
        vm_compute; reflexivity).
  destruct (Hrings placeholders H) as (_ & Hids & _ & Hne).
  split; [exact E|]. split; [exact H|]. split; [exact Hids | exact Hne].
Defined.

(** C3.  On the mapped path every record written has the six fields of
    an output record, [href] a string among them.  On the placeholder
    path it has not: the two placeholders have five properties and no
    [href]. *)
Theorem written_record_fields (JSON_parse : string -> completion value)
  (fetch : string -> completion response) (rings : list value) :
  outcome (main JSON_parse fetch) = Normal rings ->
  (collected JSON_parse fetch <> [] ->
     Forall (fun p => output_record p = true) rings)
  /\ (collected JSON_parse fetch = [] ->
      Forall (fun p => get p "href" = VUndefined /\ output_record p = false)
             rings).
Proof.
  intros H. apply main_written in H. subst rings.
  pose proof (collected_mapped JSON_parse fetch) as Hm.
  destruct (collected JSON_parse fetch) as [|p ps] eqn:E.
  - split; [now intros Hne|]. intros _. repeat constructor.
  - split; [|discriminate]. intros _.
    unfold rings_of. rewrite uniqBy_kept, Forall_forall in *.
    intros x Hx. apply kept_In in Hx. destruct Hx as (Hx & _).
    apply mapped_output_record. now apply Hm.
Qed.

Lemma written_record_fields_witness :
  outcome (main read_json site_bare) = Normal placeholders
  /\ collected read_json site_bare = []
  /\ Forall (fun p => get p "href" = VUndefined /\ output_record p = false)
            placeholders.
Proof.
  assert (H : outcome (main read_json site_bare) = Normal placeholders)
    by (vm_compute; reflexivity).
  split; [exact H|]. split; [vm_compute; reflexivity|].
  apply (proj2 (written_record_fields read_json site_bare placeholders H)).
  vm_compute. reflexivity.
Defined.

Lemma mapped_ring (id name href : string) (product : value) :
  toRingCard product = Normal (ring (VStr id) (VStr name) (VStr href)) ->
  mapped (ring (VStr id) (VStr name) (VStr href)).
Proof. intros H. exists product. split; [exact H | reflexivity]. Qed.

(** C4, as amended.  Deduplication keeps, in the order of discovery, the
    first record of each non-empty id and drops every record whose id is
    empty: the ids written are pairwise different; of the records that
    share a non-empty id exactly one is written, the first; of those with
    the empty id none is. *)
Theorem dedup_first_wins :
  (forall products : list value,
      Forall mapped products ->
      Subsequence (uniqBy products id_of) products
      /\ NoDup (map id_of (uniqBy products id_of))
      /\ (forall p, In p products -> id_of p <> VStr "" ->
            exists q, find (same_id p) products = Some q
                      /\ filter (same_id p) (uniqBy products id_of) = [q])
      /\ (forall p, In p products -> id_of p = VStr "" ->
            filter (same_id p) (uniqBy products id_of) = []))
  /\ (forall JSON_parse fetch rings,
        outcome (main JSON_parse fetch) = Normal rings ->
        NoDup (map id_of rings)).
Proof.
  assert (Hprim : forall products : list value, Forall mapped products ->
            forall x, In x products -> is_primitive (id_of x) = true).
  { intros products Hm x Hx. rewrite Forall_forall in Hm.
    destruct (mapped_id_string x (Hm x Hx)) as (s & ->). reflexivity. }
  split.
  - intros products Hm. rewrite uniqBy_kept. repeat split.
    + apply kept_subsequence.
    + apply kept_NoDup. now apply Hprim.
    + intros p Hp Hne. rewrite Forall_forall in Hm.
      destruct (mapped_id_string p (Hm p Hp)) as (s & Hs).
      assert (Ht : ToBoolean (id_of p) = true).
      { rewrite Hs. apply ToBoolean_VStr. intros ->. now apply Hne. }
      unfold same_id. rewrite (kept_first id_of (id_of p) products Ht [] eq_refl).
      destruct (find _ products) as [q|] eqn:E; [now exists q|].
      exfalso. apply (find_none _ _ E) in Hp.
      rewrite Hs in Hp. simpl in Hp. now rewrite string_eqb_refl in Hp.
    + intros p Hp He. apply filter_none. intros x Hx.
      apply kept_In in Hx. destruct Hx as (_ & Ht & _).
      unfold same_id. rewrite He.
      destruct (SameValueZero (id_of x) (VStr "")) eqn:E; [|reflexivity].
      apply SameValueZero_true in E. now rewrite E in Ht.
  - intros JSON_parse fetch rings H. apply main_written in H. subst rings.
    pose proof (collected_mapped JSON_parse fetch) as Hm.
    destruct (collected JSON_parse fetch) as [|p ps] eqn:E.
    + simpl. repeat constructor; simpl; intuition discriminate.
    + unfold rings_of. fold id_of. change (fun p : value => id_of p) with id_of.
      rewrite uniqBy_kept. apply kept_NoDup. now apply Hprim.
Qed.

Lemma dedup_first_wins_witness :
  Subsequence (uniqBy [card_a1; card_b; card_a2] id_of) [card_a1; card_b; card_a2]
  /\ NoDup (map id_of (uniqBy [card_a1; card_b; card_a2] id_of))
  /\ (forall p, In p [card_a1; card_b; card_a2] -> id_of p <> VStr "" ->
        exists q, find (same_id p) [card_a1; card_b; card_a2] = Some q
                  /\ filter (same_id p) (uniqBy [card_a1; card_b; card_a2] id_of) = [q])
  /\ (forall p, In p [card_a1; card_b; card_a2] -> id_of p = VStr "" ->
        filter (same_id p) (uniqBy [card_a1; card_b; card_a2] id_of) = []).
Proof.
  apply (proj1 dedup_first_wins [card_a1; card_b; card_a2]).
  repeat constructor.
  - apply (mapped_ring "a" "First" ""
             (VObj [("name", VStr "First"); ("sku", VStr "a")])). reflexivity.
  - apply (mapped_ring "b" "Second" ""
             (VObj [("name", VStr "Second"); ("sku", VStr "b")])). reflexivity.
  - apply (mapped_ring "a" "Third" ""
             (VObj [("name", VStr "Third"); ("sku", VStr "a")])). reflexivity.
Defined.

(** C4 as stated fails: [card_stars] and [card_dashes] are two mapped
    records that share an id, the empty one, and the output holds
    neither. *)
Lemma shared_empty_id_drops_both :
  toRingCard (VObj [("name", VStr "***")]) = Normal card_stars
  /\ toRingCard (VObj [("name", VStr "---")]) = Normal card_dashes
  /\ id_of card_stars = id_of card_dashes
  /\ uniqBy [card_stars; card_dashes] id_of = [].
Proof. repeat split. Qed.

(** C10, as amended.  Deduplication drops every record whose id is the
    empty string, not only the later duplicates.  An item that has a
    name and neither sku nor url takes the slug of its name as id, and
    this slug is empty exactly when no code unit of the name is an
    ASCII letter or digit, U+0130 or the Kelvin sign U+212A: the record
    of such an item is mapped with the empty id and is not in the array
    written.  On the path that is not the placeholder one every record
    written has a non-empty string as its id. *)
Theorem empty_id_dropped (JSON_parse : string -> completion value)
  (fetch : string -> completion response) (rings : list value) :
  outcome (main JSON_parse fetch) = Normal rings ->
  (forall (products : list value) p,
      In p (uniqBy products id_of) -> In p products /\ id_of p <> VStr "")
  /\ (forall (products : list value) p,
        In p products -> id_of p = VStr "" -> ~ In p (uniqBy products id_of))
  /\ (forall product n,
        opt_get product "name" = VStr n -> n <> "" ->
        opt_get product "sku" = VUndefined ->
        opt_get product "url" = VUndefined ->
        toRingCard product
        = Normal (ring (VStr (slugify n)) (VStr (trim n)) (VStr ""))
        /\ (slugify n = "" <-> no_slug_source n = true)
        /\ (no_slug_source n = true ->
            toRingCard product
            = Normal (ring (VStr "") (VStr (trim n)) (VStr ""))
            /\ ~ In (ring (VStr "") (VStr (trim n)) (VStr "")) rings))
  /\ (collected JSON_parse fetch <> [] ->
        Forall (fun p => exists s, id_of p = VStr s /\ s <> "") rings).
Proof.
  intros H.
  assert (Hkept : forall (products : list value) p,
            In p (uniqBy products id_of) -> In p products /\ id_of p <> VStr "").
  { intros products p Hp. rewrite uniqBy_kept in Hp. apply kept_In in Hp.
    destruct Hp as (Hin & Ht & _). split; [exact Hin|].
    intros E. now rewrite E in Ht. }
  apply main_written in H. rename H into Hw.
  pose proof (collected_mapped JSON_parse fetch) as Hm.
  split; [exact Hkept|]. split; [|split].
  - intros products p Hp He Hin. apply Hkept in Hin. tauto.
  - intros product n Hn Hne Hs Hu.
    pose proof (toRingCard_name_only product n Hn Hne Hs Hu) as Hcard.
    split; [exact Hcard|]. split; [apply slugify_empty_iff|].
    intros Hno. split.
    + now rewrite Hcard, (slugify_no_alnum n Hno).
    + rewrite Hw. unfold rings_of.
      destruct (collected JSON_parse fetch) as [|p ps].
      * simpl. unfold ring. intuition discriminate.
      * intros Hin. apply Hkept in Hin. now destruct Hin as [_ Hid].
  - intros Hne. rewrite Hw. unfold rings_of.
    destruct (collected JSON_parse fetch) as [|p ps] eqn:E; [now elim Hne|].
    rewrite Forall_forall in *. intros x Hx.
    apply Hkept in Hx. destruct Hx as [Hx Hid].
    destruct (mapped_id_string x (Hm x Hx)) as (s & Hs).
    exists s. split; [exact Hs|]. intros ->. now apply Hid.
Qed.

Lemma empty_id_dropped_witness :
  toRingCard item_symbols = Normal (ring (VStr "") (VStr "***") (VStr ""))
  /\ collected read_json site_symbols = [ring (VStr "") (VStr "***") (VStr "")]
  /\ outcome (main read_json site_symbols) = Normal []
  /\ ~ In (ring (VStr "") (VStr "***") (VStr "")) [].
Proof.
  assert (H : outcome (main read_json site_symbols) = Normal [])
    by (vm_compute; reflexivity).
  pose proof (empty_id_dropped read_json site_symbols [] H) as (_ & _ & Hn & _).
  assert (Hne : "***" <> "") by discriminate.
  destruct (Hn item_symbols "***" eq_refl Hne eq_refl eq_refl)
    as (_ & _ & Hdrop).
  destruct (Hdrop eq_refl) as [Hcard Hout].
  split; [exact Hcard|]. split; [vm_compute; reflexivity|].
  split; [exact H | exact Hout].
Defined.

(** C10 as stated fails: the Kelvin sign is no letter or digit of
    [[A-Za-z0-9]], and an item named with it that has neither sku nor
    url is mapped with the id [k], since [k] is the lower case of the
    Kelvin sign: its record is written. *)
Lemma kelvin_name_is_written :
  no_alnum kelvin = true
  /\ opt_get item_kelvin "name" = VStr kelvin
  /\ opt_get item_kelvin "sku" = VUndefined
  /\ opt_get item_kelvin "url" = VUndefined
  /\ toRingCard item_kelvin
     = Normal (ring (VStr "k") (VStr kelvin) (VStr ""))
  /\ read_json (trim (dq "
{`@context`:`https://schema.org`,`@type`:`Product`,`name`:`\u212A`}
")) = Normal item_kelvin
  /\ main read_json site_kelvin
     = {| fetched := [SITE; url_solitaire];
          outcome := Normal [ring (VStr "k") (VStr kelvin) (VStr "")] |}.
Proof. repeat split; vm_compute; reflexivity. Qed.

(** ** The end-to-end scenario *)

(** A value with a string property is an object. *)
Lemma get_string_object (x : value) (k s : string) :
  get x k = VStr s -> exists props, x = VObj props.
Proof. destruct x; try discriminate. intros _. now eexists. Qed.

Lemma pushAny_typed (x : value) (k s : string) :
  get x k = VStr s -> pushAny x = pushAny (get x "@graph") ++ [x].
Proof.
  intros H. destruct (get_string_object x k s H) as [props ->].
  apply pushAny_obj.
Qed.

Lemma ToBoolean_typed (x : value) (k s : string) :
  get x k = VStr s -> ToBoolean x = true.
Proof.
  intros H. now destruct (get_string_object x k s H) as [props ->].
Qed.

Section Scenario.

Variable JSON_parse : string -> completion value.
Variable fetch : string -> completion response.
Variables (home page : string) (st1 st2 : nat).
Variables (itemList li product : value).

Hypothesis home_ok :
  fetch SITE = Normal {| ok := true; status := st1; text := Normal home |}.
Hypothesis home_blocks : extractJsonLd JSON_parse home = [itemList].
Hypothesis list_type : get itemList "@type" = VStr "ItemList".
Hypothesis list_flat : ToBoolean (get itemList "@graph") = false.
Hypothesis list_entries : get itemList "itemListElement" = VArr [li].
Hypothesis entry : entry_url li = VStr "/rings/solitaire".
Hypothesis page_ok :
  fetch url_solitaire
  = Normal {| ok := true; status := st2; text := Normal page |}.
Hypothesis page_product :
  find_type "Product" (page_items JSON_parse page) = product.
Hypothesis product_name : get product "name" = VStr "Solitaire Ring".
Hypothesis product_sku : get product "sku" = VStr "SOL-1".

Lemma scenario_candidates : candidate_urls JSON_parse home = [url_solitaire].
Proof.
  unfold candidate_urls, page_items. rewrite home_blocks.
  cbn [flat_map]. rewrite app_nil_r. unfold normalizeToItems.
  rewrite (pushAny_typed _ _ _ list_type), (pushAny_falsy _ list_flat).
  cbn [app].
  unfold find_type. cbn [find]. rewrite !opt_get_get, list_type.
  cbn [strict_eq_str]. rewrite string_eqb_refl.
  rewrite list_entries. unfold js_or. cbn [ToBoolean].
  cbn [listed_urls]. rewrite entry. reflexivity.
Qed.

Lemma scenario_run (card : value) :
  toRingCard product = Normal card -> ToBoolean card = true ->
  main JSON_parse fetch
  = {| fetched := [SITE; url_solitaire];
       outcome := Normal (uniqBy [card] id_of) |}.
Proof.
  intros Hcard Ht. unfold main, fetchText. rewrite home_ok.
  cbn [bind ok text negb app]. rewrite scenario_candidates.
  change (uniqBy [url_solitaire] VStr) with [url_solitaire].
  cbn [firstn collect]. unfold scrape_page, fetchText. rewrite page_ok.
  cbn [bind ok text negb app]. rewrite page_product.
  rewrite (ToBoolean_typed _ _ _ product_name).
  cbn [negb]. rewrite Hcard. cbn [bind]. rewrite Ht.
  reflexivity.
Qed.

(** C1, as amended.  The home page has one block, an ItemList whose one
    entry gives the relative URL [/rings/solitaire]; the page at that
    URL marks a Product named [Solitaire Ring] with the sku [SOL-1].
    The run fetches the two pages and writes exactly one record, with
    the id [SOL-1], and its [href] is the Product's own [url] property:
    the URL of the page when the Product states it, and the empty string
    when the Product has none. *)
Theorem end_to_end :
  (get product "url" = VStr url_solitaire ->
     main JSON_parse fetch
     = {| fetched := [SITE; url_solitaire];
          outcome := Normal [ring (VStr "SOL-1") (VStr "Solitaire Ring")
                                  (VStr url_solitaire)] |})
  /\ (get product "url" = VUndefined ->
      main JSON_parse fetch
      = {| fetched := [SITE; url_solitaire];
           outcome := Normal [ring (VStr "SOL-1") (VStr "Solitaire Ring")
                                   (VStr "")] |}).
Proof.
  assert (Hcard : forall u h,
            get product "url" = u ->
            (if ToBoolean u then let* s := ToString u in Normal (VStr s)
             else Normal (VStr "")) = Normal (VStr h) ->
            toRingCard product
            = Normal (ring (VStr "SOL-1") (VStr "Solitaire Ring") (VStr h))).
  { intros u h Hu Hh. unfold toRingCard, derive_id, id_from_sku.
    rewrite !opt_get_get, product_name, product_sku, Hu.
    cbn [js_or ToBoolean String.eqb N.eqb Bool.eqb negb ToString bind].
    rewrite Hh. reflexivity. }
  split; intros Hu.
  - rewrite (scenario_run _ (Hcard _ url_solitaire Hu eq_refl) eq_refl).
    reflexivity.
  - rewrite (scenario_run _ (Hcard _ "" Hu eq_refl) eq_refl).
    reflexivity.
Qed.

End Scenario.

Lemma end_to_end_witness :
  main read_json site_solitaire_url
  = {| fetched := [SITE; url_solitaire];
       outcome := Normal [ring (VStr "SOL-1") (VStr "Solitaire Ring")
                               (VStr url_solitaire)] |}.
Proof.
  refine (proj1 (end_to_end read_json site_solitaire_url
                   home_solitaire page_solitaire_url 200 200
                   list_solitaire entry_solitaire product_solitaire_url
                   _ _ _ _ _ _ _ _ _ _) _);
    vm_compute; reflexivity.
Defined.

(** C1 as stated fails: in the scenario as the claim gives it, the
    Product carrying a name and a sku and nothing else, the one record
    written has the empty [href], not the URL of the page. *)
Lemma scenario_href_is_empty :
  extractJsonLd read_json home_solitaire = [list_solitaire]
  /\ entry_url entry_solitaire = VStr "/rings/solitaire"
  /\ find_type "Product" (page_items read_json page_solitaire)
     = product_solitaire
  /\ main read_json site_solitaire
     = {| fetched := [SITE; url_solitaire];
          outcome := Normal [ring (VStr "SOL-1") (VStr "Solitaire Ring")
                                  (VStr "")] |}
  /\ ring (VStr "SOL-1") (VStr "Solitaire Ring") (VStr "")
     <> ring (VStr "SOL-1") (VStr "Solitaire Ring") (VStr url_solitaire).
Proof. repeat split; try (vm_compute; reflexivity). discriminate. Qed.

(** * Further properties *)

(** ** The two tiers of failure *)

Lemma scrape_page_any_log (JSON_parse : string -> completion value)
  (fetch : string -> completion response) (u : string) (log : list string) :
  fst (scrape_page JSON_parse fetch u log)
  = fst (scrape_page JSON_parse fetch u []).
Proof. reflexivity. Qed.

(** The records collected are those of the pages, page by page, in the
    order of the pages. *)
Lemma collect_page_records (JSON_parse : string -> completion value)
  (fetch : string -> completion response) (pages : list string) :
  forall products log,
    fst (collect JSON_parse fetch pages products log)
    = products ++ flat_map (page_record JSON_parse fetch) pages.
Proof.
  induction pages as [|u rest IH]; intros products log; cbn [collect flat_map].
  - now rewrite app_nil_r.
  - unfold page_record at 1.
    rewrite <- (scrape_page_any_log JSON_parse fetch u log).
    destruct (scrape_page JSON_parse fetch u log) as [r log'].
    cbn [fst]. destruct r as [[card|]|e]; rewrite IH.
    + now rewrite <- app_assoc.
    + reflexivity.
    + reflexivity.
Qed.

Lemma page_record_short (JSON_parse : string -> completion value)
  (fetch : string -> completion response) (u : string) :
  List.length (page_record JSON_parse fetch u) <= 1.
Proof.
  unfold page_record.
  destruct (fst (scrape_page JSON_parse fetch u [])) as [[card|]|e];
    simpl; lia.
Qed.

Lemma page_records_short (JSON_parse : string -> completion value)
  (fetch : string -> completion response) (pages : list string) :
  List.length (flat_map (page_record JSON_parse fetch) pages)
  <= List.length pages.
Proof.
  induction pages as [|u rest IH]; simpl; [lia|].
  rewrite length_app.
  pose proof (page_record_short JSON_parse fetch u). lia.
Qed.

Lemma Subsequence_length {A : Type} (l l' : list A) :
  Subsequence l l' -> List.length l <= List.length l'.
Proof. induction 1; simpl; lia. Qed.

Lemma Subsequence_Forall {A : Type} (P : A -> Prop) (l l' : list A) :
  Subsequence l l' -> Forall P l' -> Forall P l.
Proof.
  induction 1 as [|x l l' _ IH|x l l' _ IH]; intros H.
  - constructor.
  - apply IH. now inversion H.
  - inversion H; subst. constructor; [assumption | now apply IH].
Qed.

(** X1.  A run fails at the home page or at the write, and nowhere
    else.  When the request for the home page is rejected, answered
    with a status that is not ok, or its body cannot be read, [main]
    rejects with that error (for a bad status, the one that carries the
    status and the URL) after that single request, whatever the file
    system would have done, and the exit code is 1.  When the home page
    is fetched, [main] goes on to write the array of the run, whatever
    the product pages do: it rejects, with exit code 1, exactly when
    making the directory or writing the file rejects, and with the
    error of that call; otherwise it is fulfilled, having written the
    serialized array followed by a line feed, and the exit code is
    0. *)
Theorem run_fails_at_home_or_write (JSON_parse : string -> completion value)
  (fetch : string -> completion response) (mkdir : completion unit)
  (JSON_stringify : list value -> string)
  (writeFile : string -> completion unit) :
  (forall e,
      fetch SITE = Throw e ->
      main JSON_parse fetch = {| fetched := [SITE]; outcome := Throw e |}
      /\ main_settled mkdir JSON_stringify writeFile (main JSON_parse fetch)
         = Throw e
      /\ exitCode (main_settled mkdir JSON_stringify writeFile
                     (main JSON_parse fetch)) = 1)
  /\ (forall res,
        fetch SITE = Normal res -> ok res = false ->
        main JSON_parse fetch
        = {| fetched := [SITE];
             outcome := Throw (RequestFailed (status res) SITE) |}
        /\ main_settled mkdir JSON_stringify writeFile (main JSON_parse fetch)
           = Throw (RequestFailed (status res) SITE)
        /\ exitCode (main_settled mkdir JSON_stringify writeFile
                       (main JSON_parse fetch)) = 1)
  /\ (forall res e,
        fetch SITE = Normal res -> ok res = true -> text res = Throw e ->
        main JSON_parse fetch = {| fetched := [SITE]; outcome := Throw e |}
        /\ main_settled mkdir JSON_stringify writeFile (main JSON_parse fetch)
           = Throw e
        /\ exitCode (main_settled mkdir JSON_stringify writeFile
                       (main JSON_parse fetch)) = 1)
  /\ (forall res homeHtml,
        fetch SITE = Normal res -> ok res = true ->
        text res = Normal homeHtml ->
        outcome (main JSON_parse fetch)
        = Normal (rings_of (collected JSON_parse fetch))
        /\ main_settled mkdir JSON_stringify writeFile (main JSON_parse fetch)
           = write_rings mkdir JSON_stringify writeFile
               (rings_of (collected JSON_parse fetch))
        /\ (forall e,
              mkdir = Throw e ->
              main_settled mkdir JSON_stringify writeFile
                (main JSON_parse fetch) = Throw e)
        /\ (forall e,
              mkdir = Normal tt ->
              writeFile (JSON_stringify (rings_of (collected JSON_parse fetch))
                         ++ String 10%N "")%string = Throw e ->
              main_settled mkdir JSON_stringify writeFile
                (main JSON_parse fetch) = Throw e)
        /\ (mkdir = Normal tt ->
            writeFile (JSON_stringify (rings_of (collected JSON_parse fetch))
                       ++ String 10%N "")%string = Normal tt ->
            main_settled mkdir JSON_stringify writeFile
              (main JSON_parse fetch)
            = Normal (JSON_stringify (rings_of (collected JSON_parse fetch))
                      ++ String 10%N "")%string)
        /\ (exitCode (main_settled mkdir JSON_stringify writeFile
                        (main JSON_parse fetch)) = 0
            <-> mkdir = Normal tt
                /\ writeFile
                     (JSON_stringify (rings_of (collected JSON_parse fetch))
                      ++ String 10%N "")%string = Normal tt)).
Proof.
  pose proof (main_run JSON_parse fetch) as H.
  unfold fetchText in H. cbn [fst] in H.
  split; [|split; [|split]].
  - intros e E. rewrite E in H. cbn [bind] in H.
    rewrite H. now repeat split.
  - intros res E Hok. rewrite E in H. cbn [bind] in H. rewrite Hok in H.
    cbn [negb] in H. rewrite H. now repeat split.
  - intros res e E Hok Ht. rewrite E in H. cbn [bind] in H.
    rewrite Hok, Ht in H. cbn [negb] in H. rewrite H. now repeat split.
  - intros res h E Hok Ht. rewrite E in H. cbn [bind] in H.
    rewrite Hok, Ht in H. cbn [negb] in H. rewrite H.
    unfold main_settled, write_rings. cbn [outcome bind].
    split; [reflexivity|]. split; [reflexivity|].
    split; [|split; [|split]].
    + intros e ->. reflexivity.
    + intros e -> Hw. cbn [bind]. now rewrite Hw.
    + intros -> Hw. cbn [bind]. now rewrite Hw.
    + split.
      * destruct mkdir as [[]|e]; cbn [bind exitCode]; [|discriminate].
        destruct (writeFile _) as [[]|e]; cbn [bind exitCode];
          [now split | discriminate].
      * intros [-> Hw]. cbn [bind]. now rewrite Hw.
Qed.

(** X2.  The product pages are independent of one another.  The records
    collected are the concatenation, in the order of the pages, of what
    each page gives on its own: one record or none.  A page whose fetch
    or mapping throws gives none, and taking it out of the list leaves
    the records of the others as they are. *)
Theorem pages_are_independent (JSON_parse : string -> completion value)
  (fetch : string -> completion response) :
  (forall pages products log,
      fst (collect JSON_parse fetch pages products log)
      = products ++ flat_map (page_record JSON_parse fetch) pages)
  /\ (forall u log e,
        fst (scrape_page JSON_parse fetch u log) = Throw e ->
        page_record JSON_parse fetch u = [])
  /\ (forall before u after log log',
        page_record JSON_parse fetch u = [] ->
        fst (collect JSON_parse fetch (before ++ u :: after) [] log)
        = fst (collect JSON_parse fetch (before ++ after) [] log')).
Proof.
  split; [|split].
  - intros. apply collect_page_records.
  - intros u log e H. unfold page_record.
    rewrite <- (scrape_page_any_log JSON_parse fetch u log), H. reflexivity.
  - intros before u after log log' H.
    rewrite !collect_page_records, !flat_map_app. cbn [flat_map].
    now rewrite H.
Qed.

(** X3.  A run never writes more than 60 records, and on the mapped path
    never more than the number of product pages it requested. *)
Theorem record_count_bound (JSON_parse : string -> completion value)
  (fetch : string -> completion response) (rings : list value) :
  outcome (main JSON_parse fetch) = Normal rings ->
  List.length rings <= 60
  /\ (collected JSON_parse fetch <> [] ->
      List.length rings <= List.length (tl (fetched (main JSON_parse fetch)))).
Proof.
  intros H. apply main_written in H. subst rings.
  pose proof (main_run JSON_parse fetch) as Hrun.
  unfold collected in *.
  destruct (fetchText fetch SITE []) as [[homeHtml|e] log]; cbn [fst] in Hrun.
  - rewrite Hrun. cbn [fetched tl]. unfold product_pages.
    rewrite collect_page_records. cbn [app].
    set (pages := firstn 60 (uniqBy (candidate_urls JSON_parse homeHtml) VStr)).
    assert (Hp : List.length pages <= 60) by apply firstn_le_length.
    pose proof (page_records_short JSON_parse fetch pages) as Hr.
    destruct (flat_map (page_record JSON_parse fetch) pages) as [|p ps] eqn:E.
    + split; [simpl; lia | now intros Hne].
    + assert (Hu : List.length (rings_of (p :: ps)) <= List.length (p :: ps)).
      { unfold rings_of. rewrite uniqBy_kept.
        apply Subsequence_length, kept_subsequence. }
      split; [lia | intros _; lia].
  - split; [simpl; lia | now intros Hne].
Qed.

Lemma record_count_bound_witness :
  List.length [ring (VStr "SOL-1") (VStr "Solitaire Ring") (VStr "")] <= 60
  /\ (collected read_json site_solitaire <> [] ->
      List.length [ring (VStr "SOL-1") (VStr "Solitaire Ring") (VStr "")]
      <= List.length (tl (fetched (main read_json site_solitaire)))).
Proof.
  assert (H : outcome (main read_json site_solitaire)
              = Normal [ring (VStr "SOL-1") (VStr "Solitaire Ring") (VStr "")])
    by (vm_compute; reflexivity).
  exact (record_count_bound read_json site_solitaire _ H).
Defined.

(** ** The URLs of a run *)

(** The loop over the entries adds to [urls] what each entry gives, in
    the order of the entries. *)
Lemma listed_urls_entries (entries : list value) :
  forall urls,
    listed_urls entries urls = urls ++ flat_map entry_candidates entries.
Proof.
  induction entries as [|li rest IH]; intros urls; cbn [listed_urls flat_map].
  - now rewrite app_nil_r.
  - unfold entry_candidates at 1.
    destruct (entry_url li) as [| | | |u| |]; try apply IH.
    destruct (startsWith u "http").
    + rewrite IH, <- app_assoc. reflexivity.
    + destruct (startsWith u "/").
      * rewrite IH, <- app_assoc. reflexivity.
      * apply IH.
Qed.

Lemma entry_candidates_absolute (li : value) :
  Forall (fun u => startsWith u "http" = true) (entry_candidates li).
Proof.
  unfold entry_candidates.
  destruct (entry_url li) as [| | | |u| |]; try constructor.
  destruct (startsWith u "http") eqn:E.
  - constructor; [exact E | constructor].
  - destruct (startsWith u "/"); constructor; [reflexivity | constructor].
Qed.

Lemma candidate_urls_absolute (JSON_parse : string -> completion value)
  (homeHtml : string) :
  Forall (fun u => startsWith u "http" = true)
         (candidate_urls JSON_parse homeHtml).
Proof.
  unfold candidate_urls. rewrite listed_urls_entries. cbn [app].
  apply Forall_flat_map, Forall_forall. intros li _.
  apply entry_candidates_absolute.
Qed.

Lemma firstn_subset {A : Type} (n : nat) (l : list A) (x : A) :
  In x (firstn n l) -> In x l.
Proof.
  revert l. induction n as [|n IH]; intros [|a l]; simpl; try tauto.
  intros [->|H]; [now left | right; now apply IH].
Qed.

(** X4.  Every URL a run requests is absolute: it starts with [http].
    A list entry gives a URL only when [li.url], else [li.item.url],
    else [li.item] is a string that starts with [http], taken as it is,
    or with a slash, appended to the site root; an entry that is not an
    object (a bare string, say) gives none. *)
Theorem requests_are_absolute (JSON_parse : string -> completion value)
  (fetch : string -> completion response) :
  Forall (fun u => startsWith u "http" = true)
         (fetched (main JSON_parse fetch))
  /\ (forall entries urls,
        listed_urls entries urls = urls ++ flat_map entry_candidates entries)
  /\ (forall li, is_object li = false -> entry_candidates li = [])
  /\ (forall li, List.length (entry_candidates li) <= 1).
Proof.
  split; [|split; [|split]].
  - pose proof (main_run JSON_parse fetch) as H.
    destruct (fst (fetchText fetch SITE [])) as [homeHtml|e]; rewrite H;
      cbn [fetched].
    + constructor; [reflexivity|].
      apply Forall_forall. intros u Hu. apply firstn_subset in Hu.
      unfold product_pages in Hu. rewrite uniqBy_kept in Hu.
      apply kept_In in Hu. destruct Hu as (Hu & _).
      pose proof (candidate_urls_absolute JSON_parse homeHtml) as Ha.
      rewrite Forall_forall in Ha. now apply Ha.
    + constructor; [reflexivity | constructor].
  - intros entries urls. apply listed_urls_entries.
  - intros li Hli. unfold entry_candidates, entry_url.
    destruct li; try discriminate Hli; reflexivity.
  - intros li. unfold entry_candidates.
    destruct (entry_url li) as [| | | |u| |]; cbn [List.length]; try lia.
    destruct (startsWith u "http"); [cbn [List.length]; lia|].
    destruct (startsWith u "/"); cbn [List.length]; lia.
Qed.

(** ** Candidate items *)

Lemma pushAny_objects :
  forall x, Forall (fun y => is_object y = true) (pushAny x).
Proof.
  fix IH 1. intros x. destruct x as [| |b|n|s|elems|props]; simpl;
    try constructor.
  - destruct (negb b); constructor.
  - destruct (negb (negb _)); constructor.
  - destruct (negb (negb _)); constructor.
  - induction elems as [|a elems IHe]; simpl; [constructor|].
    apply Forall_app. split; [apply IH | exact IHe].
  - apply Forall_app. split; [|repeat constructor].
    induction props as [|[k v] props IHp]; [constructor|].
    destruct (k =? "@graph").
    + destruct (ToBoolean v); [apply IH | constructor].
    + exact IHp.
Qed.

Lemma find_type_found (tag : string) (items : list value) :
  find_type tag items = VUndefined
  \/ (In (find_type tag items) items
      /\ get (find_type tag items) "@type" = VStr tag).
Proof.
  unfold find_type.
  destruct (find _ items) as [x|] eqn:E; [right | now left].
  apply find_some in E. destruct E as [Hin Ht]. split; [exact Hin|].
  rewrite opt_get_get in Ht. destruct (get x "@type"); try discriminate.
  simpl in Ht. apply string_eqb_eq in Ht. now subst.
Qed.

(** X5.  The candidate items are always objects: flattening leaves out
    every null, boolean, number and string and keeps no array, so what
    [find] returns for a type tag is undefined or an object of the page
    that carries that tag. *)
Theorem items_are_objects (JSON_parse : string -> completion value)
  (html tag : string) :
  (forall x, Forall (fun y => is_object y = true) (normalizeToItems x))
  /\ Forall (fun y => is_object y = true) (page_items JSON_parse html)
  /\ (find_type tag (page_items JSON_parse html) = VUndefined
      \/ (is_object (find_type tag (page_items JSON_parse html)) = true
          /\ In (find_type tag (page_items JSON_parse html))
                (page_items JSON_parse html)
          /\ get (find_type tag (page_items JSON_parse html)) "@type"
             = VStr tag)).
Proof.
  assert (Hp : Forall (fun y => is_object y = true) (page_items JSON_parse html)).
  { unfold page_items. apply Forall_flat_map, Forall_forall.
    intros x _. apply pushAny_objects. }
  split; [exact pushAny_objects|]. split; [exact Hp|].
  destruct (find_type_found tag (page_items JSON_parse html)) as [E | [Hin Ht]].
  - now left.
  - right. split; [|now split].
    rewrite Forall_forall in Hp. now apply Hp.
Qed.

(** ** [uniqBy] once more *)

Lemma kept_fixed {A : Type} (keyFn : A -> value) (l : list A) :
  (forall x, In x l -> is_primitive (keyFn x) = true) ->
  NoDup (map keyFn l) ->
  forall seen,
    (forall x, In x l ->
       ToBoolean (keyFn x) = true /\ Set_has seen (keyFn x) = false) ->
    kept keyFn seen l = l.
Proof.
  intros Hprim. induction l as [|a l IH]; intros Hnd seen Hl; simpl.
  - reflexivity.
  - destruct (Hl a (or_introl eq_refl)) as [Ht Hs]. rewrite Ht, Hs. simpl.
    f_equal. inversion Hnd as [|? ? Hnotin Hnd']; subst.
    apply IH.
    + intros x Hx. apply Hprim. now right.
    + exact Hnd'.
    + intros x Hx. destruct (Hl x (or_intror Hx)) as [Htx Hsx].
      split; [exact Htx|]. rewrite Set_has_add, Hsx. simpl.
      destruct (SameValueZero (keyFn x) (keyFn a)) eqn:E; [|reflexivity].
      apply SameValueZero_true in E. exfalso. apply Hnotin.
      rewrite <- E. now apply in_map.
Qed.

Lemma kept_keeps_keys {A : Type} (keyFn : A -> value) (arr : list A) :
  forall seen x,
    In x arr -> ToBoolean (keyFn x) = true -> Set_has seen (keyFn x) = false ->
    is_primitive (keyFn x) = true ->
    exists y, In y (kept keyFn seen arr) /\ keyFn y = keyFn x.
Proof.
  induction arr as [|a arr IH]; intros seen x Hin Ht Hs Hp; [contradiction|].
  simpl. destruct Hin as [->|Hin].
  - rewrite Ht, Hs. simpl. exists x. split; [now left | reflexivity].
  - destruct (negb (ToBoolean (keyFn a)) || Set_has seen (keyFn a)) eqn:E.
    + now apply IH.
    + destruct (SameValueZero (keyFn x) (keyFn a)) eqn:Esame.
      * apply SameValueZero_true in Esame. exists a. split; [now left | congruence].
      * destruct (IH (seen ++ [keyFn a]) x Hin Ht) as (y & Hy & Hk).
        -- now rewrite Set_has_add, Hs, Esame.
        -- exact Hp.
        -- exists y. split; [now right | exact Hk].
Qed.

(** X6.  On keys that are not objects (strings, as both uses have them)
    deduplication is idempotent and loses no key: deduplicating twice
    gives what deduplicating once gives, and every truthy key of the
    array is the key of an item that is kept. *)
Theorem uniqBy_idempotent {A : Type} (keyFn : A -> value) (arr : list A) :
  (forall x, In x arr -> is_primitive (keyFn x) = true) ->
  uniqBy (uniqBy arr keyFn) keyFn = uniqBy arr keyFn
  /\ (forall x, In x arr -> ToBoolean (keyFn x) = true ->
        exists y, In y (uniqBy arr keyFn) /\ keyFn y = keyFn x).
Proof.
  intros Hprim. split.
  - rewrite !uniqBy_kept. apply kept_fixed.
    + intros x Hx. apply kept_In in Hx. apply Hprim. tauto.
    + now apply kept_NoDup.
    + intros x Hx. apply kept_In in Hx. split; [tauto | reflexivity].
  - intros x Hx Ht. rewrite uniqBy_kept.
    apply kept_keeps_keys; auto.
Qed.

Lemma uniqBy_idempotent_witness :
  uniqBy (uniqBy ["/a"; ""; "/b"; "/a"] VStr) VStr
  = uniqBy ["/a"; ""; "/b"; "/a"] VStr
  /\ (forall x, In x ["/a"; ""; "/b"; "/a"] -> ToBoolean (VStr x) = true ->
        exists y, In y (uniqBy ["/a"; ""; "/b"; "/a"] VStr) /\ VStr y = VStr x).
Proof.
  apply (uniqBy_idempotent VStr ["/a"; ""; "/b"; "/a"]).
  intros x _. reflexivity.
Defined.

(** ** The first Product of a page *)

Lemma find_first {A : Type} (f : A -> bool) (before after : list A) (p : A) :
  Forall (fun x => f x = false) before -> f p = true ->
  find f (before ++ p :: after) = Some p.
Proof.
  induction 1 as [|x before Hx _ IH]; intros Hp; simpl.
  - now rewrite Hp.
  - rewrite Hx. now apply IH.
Qed.

(** X7.  Only the first Product of a page counts.  When the items of a
    page are [before], then [p] tagged Product, then [after], with no
    Product among [before], the page gives the record of [p] or, when
    the mapping of [p] throws or returns null, nothing: the Products
    among [after] are never looked at. *)
Theorem first_product_only (JSON_parse : string -> completion value)
  (fetch : string -> completion response) (u html : string)
  (res : response) (before after : list value) (p : value) :
  fetch u = Normal res -> ok res = true -> text res = Normal html ->
  page_items JSON_parse html = before ++ p :: after ->
  Forall (fun x => strict_eq_str (opt_get x "@type") "Product" = false)
         before ->
  get p "@type" = VStr "Product" ->
  page_record JSON_parse fetch u
  = match toRingCard p with
    | Normal card => if ToBoolean card then [card] else []
    | Throw _ => []
    end.
Proof.
  intros Hf Hok Ht Hitems Hbefore Hp.
  unfold page_record, scrape_page, fetchText.
  rewrite Hf. cbn [bind fst]. rewrite Hok, Ht. cbn [negb bind].
  rewrite Hitems. unfold find_type.
  rewrite (find_first _ before after p Hbefore).
  - rewrite (ToBoolean_typed _ _ _ Hp). cbn [negb].
    destruct (toRingCard p) as [card|e]; cbn [bind]; [|reflexivity].
    now destruct (ToBoolean card).
  - rewrite opt_get_get, Hp. reflexivity.
Qed.

Lemma first_product_only_witness :
  page_record read_json site_two_products url_solitaire = [].
Proof.
  apply (first_product_only read_json site_two_products url_solitaire
           page_two_products
           {| ok := true; status := 200; text := Normal page_two_products |}
           [VObj [("@type", VStr "BreadcrumbList")]]
           [VObj [("@type", VStr "Product"); ("name", VStr "Named Ring");
                  ("sku", VStr "B-2")]]
           (VObj [("@type", VStr "Product"); ("sku", VStr "A-1")]));
    try (vm_compute; reflexivity).
  repeat constructor.
Defined.

(** ** What the pattern matches *)

Lemma literal_ci_app (pat p r x : string) :
  literal_ci pat p = Some r ->
  literal_ci pat (p ++ x) = Some (r ++ x)%string.
Proof.
  revert p. induction pat as [|a pat IH]; intros p; cbn [literal_ci].
  - intros H. now injection H as ->.
  - destruct p as [|c p]; [discriminate|]. cbn [append literal_ci].
    destruct (fold_case a =? fold_case c)%char; [|discriminate]. apply IH.
Qed.

Lemma contains_ci_here (pat s r : string) :
  literal_ci pat s = Some r -> contains_ci pat s = true.
Proof. destruct s; cbn [contains_ci]; now intros ->. Qed.

Lemma contains_ci_later (pat : string) (c : N) (s : string) :
  contains_ci pat s = true -> contains_ci pat (String c s) = true.
Proof.
  intros H. cbn [contains_ci].
  now destruct (literal_ci pat (String c s)).
Qed.

Lemma contains_ci_after (pat p s : string) :
  contains_ci pat s = true -> contains_ci pat (p ++ s) = true.
Proof.
  intros H. induction p as [|c p IH]; [exact H|].
  cbn [append]. now apply contains_ci_later.
Qed.

(** The shortest body: no closing tag starts inside it. *)
Lemma lazy_body_no_closing (s b rest : string) :
  lazy_body s = Some (b, rest) -> contains_ci "</script>" b = false.
Proof.
  revert b. induction s as [|c s IH]; intros b.
  - discriminate.
  - cbn [lazy_body].
    destruct (literal_ci "</script>" (String c s)) as [r|] eqn:E.
    + intros H. injection H as <- _. reflexivity.
    + destruct (lazy_body s) as [[b' rest']|] eqn:El; [|discriminate].
      cbn [obind fst snd]. intros H. injection H as <- <-.
      cbn [contains_ci].
      destruct (literal_ci "</script>" (String c b')) as [r|] eqn:Eb.
      * apply lazy_body_split in El. destruct El as (closing & -> & _).
        apply (literal_ci_app _ _ _ (closing ++ rest')) in Eb.
        cbn [append] in Eb. rewrite Eb in E. discriminate.
      * now apply IH.
Qed.

Lemma tag_close_no_closing (s b rest : string) :
  tag_close s = Some (b, rest) -> contains_ci "</script>" b = false.
Proof.
  induction s as [|c s IH]; [discriminate|].
  cbn [tag_close]. destruct (c =? ">")%char.
  - apply lazy_body_no_closing.
  - exact IH.
Qed.

Lemma type_attr_no_closing (s b rest : string) :
  type_attr s = Some (b, rest) -> contains_ci "</script>" b = false.
Proof.
  unfold type_attr.
  destruct (literal_ci "type=" s) as [s1|]; [|discriminate]. cbn [obind].
  destruct (quote s1) as [s2|]; [|discriminate]. cbn [obind].
  destruct (literal_ci "application/ld+json" s2) as [s3|]; [|discriminate].
  cbn [obind].
  destruct (quote s3) as [s4|]; [|discriminate]. cbn [obind].
  apply tag_close_no_closing.
Qed.

Lemma tag_attrs_no_closing (s b rest : string) :
  tag_attrs s = Some (b, rest) -> contains_ci "</script>" b = false.
Proof.
  induction s as [|c s IH].
  - apply type_attr_no_closing.
  - cbn [tag_attrs]. destruct (c =? ">")%char.
    + apply (type_attr_no_closing (String c s)).
    + destruct (tag_attrs s) as [r|].
      * intros H. injection H as ->. now apply IH.
      * apply (type_attr_no_closing (String c s)).
Qed.

Lemma match_here_no_closing (s b rest : string) :
  match_here s = Some (b, rest) -> contains_ci "</script>" b = false.
Proof.
  unfold match_here.
  destruct (literal_ci "<script" s) as [s1|]; [|discriminate]. cbn [obind].
  apply tag_attrs_no_closing.
Qed.

(** The leftmost match: where it starts, and that nothing matches at an
    earlier place. *)
Lemma re_exec_leftmost (s : string) (r : string * string) :
  re_exec s = Some r ->
  exists before tail,
    s = (before ++ tail)%string
    /\ match_here tail = Some r
    /\ forall b1 b2,
         before = (b1 ++ b2)%string -> b2 <> "" ->
         match_here (b2 ++ tail) = None.
Proof.
  induction s as [|c s IH].
  - discriminate.
  - cbn [re_exec]. destruct (match_here (String c s)) as [r'|] eqn:E.
    + intros H. injection H as ->. exists "", (String c s).
      repeat split; [exact E|].
      intros b1 b2 Hb Hne. destruct b1; destruct b2; try discriminate.
      now elim Hne.
    + intros H. destruct (IH H) as (before & tail & -> & Hm & Hnone).
      exists (String c before), tail. repeat split; [exact Hm|].
      intros [|c1 b1] b2 Hb Hne; cbn [append] in Hb.
      * subst b2. exact E.
      * injection Hb as _ Hb. now apply (Hnone b1 b2).
Qed.

Lemma captures_no_closing (fuel : nat) :
  forall html,
    Forall (fun m1 => contains_ci "</script>" m1 = false) (captures fuel html).
Proof.
  induction fuel as [|fuel IH]; intros html; cbn [captures].
  - constructor.
  - destruct (re_exec html) as [[m1 rest]|] eqn:E; [|constructor].
    constructor; [|apply IH].
    apply re_exec_leftmost in E. destruct E as (before & tail & _ & Hm & _).
    now apply match_here_no_closing in Hm.
Qed.

(** X8.  A block ends at the first closing tag after its opening tag:
    no captured body contains [</script>], in any letter case.  And the
    matches are taken from left to right: each one starts at the first
    place of the remaining text where the pattern matches. *)
Theorem block_ends_at_first_closing_tag :
  (forall fuel html,
      Forall (fun m1 => contains_ci "</script>" m1 = false)
             (captures fuel html))
  /\ (forall html r,
        re_exec html = Some r ->
        exists before tail,
          html = (before ++ tail)%string
          /\ match_here tail = Some r
          /\ forall b1 b2,
               before = (b1 ++ b2)%string -> b2 <> "" ->
               match_here (b2 ++ tail) = None).
Proof.
  split.
  - intros fuel html. apply captures_no_closing.
  - intros html r. apply re_exec_leftmost.
Qed.

Lemma type_attr_marker (s : string) (r : string * string) :
  type_attr s = Some r -> contains_ci "application/ld+json" s = true.
Proof.
  unfold type_attr.
  destruct (literal_ci "type=" s) as [s1|] eqn:E1; [|discriminate].
  cbn [obind].
  destruct (quote s1) as [s2|] eqn:E2; [|discriminate]. cbn [obind].
  destruct (literal_ci "application/ld+json" s2) as [s3|] eqn:E3;
    [|discriminate].
  intros _. apply literal_ci_split in E1. destruct E1 as (p1 & -> & _).
  apply contains_ci_after.
  destruct s1 as [|q s1]; [discriminate|]. cbn [quote] in E2.
  destruct (_ || _) in E2; [|discriminate]. injection E2 as ->.
  apply contains_ci_later. now apply contains_ci_here in E3.
Qed.

Lemma tag_attrs_marker (s : string) (r : string * string) :
  tag_attrs s = Some r -> contains_ci "application/ld+json" s = true.
Proof.
  revert r. induction s as [|c s IH]; intros r.
  - apply type_attr_marker.
  - cbn [tag_attrs]. destruct (c =? ">")%char.
    + apply (type_attr_marker (String c s)).
    + destruct (tag_attrs s) as [r'|] eqn:E.
      * intros _. apply contains_ci_later. now apply (IH r').
      * apply (type_attr_marker (String c s)).
Qed.

Lemma re_exec_marker (s : string) (r : string * string) :
  re_exec s = Some r ->
  contains_ci "<script" s = true
  /\ contains_ci "application/ld+json" s = true
  /\ contains_ci "</script>" s = true.
Proof.
  intros H. destruct r as [b rest].
  pose proof (re_exec_split s b rest H)
    as (before & opening & closing & -> & Hopen & Hclose).
  apply re_exec_leftmost in H. destruct H as (before' & tail & E & Hm & _).
  split; [|split].
  - apply contains_ci_after.
    destruct (literal_ci "<script" opening) as [x|] eqn:Eo; [|now elim Hopen].
    apply (literal_ci_app _ _ _ (b ++ closing ++ rest)) in Eo.
    now apply contains_ci_here in Eo.
  - rewrite E. apply contains_ci_after.
    unfold match_here in Hm.
    destruct (literal_ci "<script" tail) as [s1|] eqn:E1; [|discriminate].
    cbn [obind] in Hm. apply tag_attrs_marker in Hm.
    apply literal_ci_split in E1. destruct E1 as (p & -> & _).
    now apply contains_ci_after.
  - rewrite <- !append_assoc.
    rewrite (append_assoc ((before ++ opening) ++ b) closing rest).
    apply contains_ci_after.
    apply (literal_ci_app _ _ _ rest) in Hclose.
    now apply contains_ci_here in Hclose.
Qed.

(** X9.  A page in which the text [application/ld+json] occurs nowhere,
    or [<script], or [</script>], in any letter case, has no block: the
    extractor returns the empty array, whatever the parser. *)
Theorem no_marker_no_block (JSON_parse : string -> completion value)
  (html : string) :
  contains_ci "application/ld+json" html = false
  \/ contains_ci "<script" html = false
  \/ contains_ci "</script>" html = false ->
  re_exec html = None /\ extractJsonLd JSON_parse html = [].
Proof.
  intros H.
  assert (E : re_exec html = None).
  { destruct (re_exec html) as [r|] eqn:E; [|reflexivity].
    apply re_exec_marker in E. destruct E as (E1 & E2 & E3).
    destruct H as [H | [H | H]]; congruence. }
  split; [exact E|].
  rewrite extractJsonLd_captures.
  destruct (String.length html); cbn [captures]; [reflexivity|].
  now rewrite E.
Qed.

Lemma no_marker_no_block_witness :
  re_exec "<html><script type='text/javascript'>var a;</script></html>" = None
  /\ extractJsonLd read_json
       "<html><script type='text/javascript'>var a;</script></html>" = [].
Proof.
  apply (no_marker_no_block read_json
           "<html><script type='text/javascript'>var a;</script></html>").
  left. reflexivity.
Defined.

(** ** The shape of a slug *)

Lemma slug_char_not_hyphen (c : N) :
  is_slug_char c = true -> (c =? "-")%char = false.
Proof.
  destruct (c =? "-")%char eqn:E; [|reflexivity].
  apply N.eqb_eq in E. subst c. discriminate.
Qed.

Lemma replace_runs_shape (t : string) :
  hyphen_separated false (strip_edges false (replace_runs false t)) = true
  /\ (replace_runs true t <> "" ->
      hyphen_separated true (strip_edges false (replace_runs true t)) = true).
Proof.
  induction t as [|c t [IH1 IH2]]; cbn [replace_runs].
  - split; [reflexivity | intros H; now elim H].
  - destruct (is_slug_char c) eqn:Ec.
    + pose proof (slug_char_not_hyphen c Ec) as Eh.
      cbn [strip_edges hyphen_separated]. rewrite Eh. cbn [andb].
      cbn [hyphen_separated]. rewrite Eh, Ec. cbn [andb].
      split; [exact IH1 | intros _; exact IH1].
    + split; [|exact IH2].
      cbn [strip_edges]. change ("-" =? "-")%char with true.
      cbn [andb orb].
      destruct (replace_runs true t =? "") eqn:Ey.
      * apply string_eqb_eq in Ey. rewrite Ey. reflexivity.
      * cbn [hyphen_separated]. change ("-" =? "-")%char with true.
        cbn [negb andb]. apply IH2. now apply string_eqb_neq.
Qed.

Lemma slugify_clean (name : string) : clean_slug (slugify name) = true.
Proof.
  unfold slugify, clean_slug.
  destruct (toLowerCase name) as [|c t]; [reflexivity|].
  cbn [replace_runs]. destruct (is_slug_char c) eqn:Ec.
  - pose proof (slug_char_not_hyphen c Ec) as Eh.
    cbn [strip_edges]. rewrite Eh. cbn [andb String.eqb orb].
    cbn [hyphen_separated]. rewrite Eh, Ec. cbn [andb].
    apply (replace_runs_shape t).
  - cbn [strip_edges]. change ("-" =? "-")%char with true. cbn [andb orb].
    destruct (replace_runs true t =? "") eqn:Ey.
    + apply string_eqb_eq in Ey. rewrite Ey. reflexivity.
    + rewrite (proj2 (replace_runs_shape t)).
      * apply orb_true_r.
      * now apply string_eqb_neq.
Qed.

Lemma slug_char_lower (c : N) :
  is_slug_char c = true \/ (c =? "-")%char = true ->
  lower_char c = String c "".
Proof.
  intros H. unfold lower_char.
  assert (E1 : in_range 65 90 c || in_range 192 222 c && negb (c =? 215)%N
               = false) by (destruct H; units).
  assert (E2 : (c =? 304)%N = false) by (destruct H; units).
  assert (E3 : (c =? 8490)%N = false) by (destruct H; units).
  now rewrite E1, E2, E3.
Qed.

Lemma hyphen_separated_fixed (s : string) :
  forall e,
    hyphen_separated e s = true ->
    toLowerCase s = s
    /\ replace_runs false s = s
    /\ (e = true -> replace_runs true s = s)
    /\ strip_edges false s = s
    /\ (e = true -> strip_edges true s = s).
Proof.
  induction s as [|c s IH]; intros e H.
  - repeat split.
  - cbn [hyphen_separated] in H.
    destruct (c =? "-")%char eqn:Eh.
    + apply andb_true_iff in H. destruct H as [He Hs].
      apply negb_true_iff in He. subst e.
      destruct (IH true Hs) as (L & R1 & R2 & S1 & S2).
      apply N.eqb_eq in Eh. subst c.
      assert (Hne : (s =? "") = false)
        by (destruct s; [discriminate Hs | reflexivity]).
      cbn [toLowerCase].
      change (lower_char "-"%char) with (String "-" "").
      cbn [append replace_runs strip_edges].
      change (is_slug_char "-"%char) with false.
      change ("-" =? "-")%char with true.
      rewrite L, (R2 eq_refl), S1, Hne. cbn [andb orb].
      repeat split; discriminate.
    + apply andb_true_iff in H. destruct H as [Hc Hs].
      destruct (IH false Hs) as (L & R1 & _ & S1 & _).
      cbn [toLowerCase replace_runs strip_edges].
      rewrite (slug_char_lower c (or_introl Hc)), L. cbn [append].
      rewrite Hc, R1, Eh, S1.
      cbn [andb]. repeat split.
Qed.

(** X10.  A slug is the empty text or runs of lower-case letters and
    digits separated by single hyphens: no other character, no hyphen
    first or last, no two hyphens in a row.  Such a text is its own
    slug, so taking the slug twice changes nothing. *)
Theorem slug_shape (name : string) :
  clean_slug (slugify name) = true
  /\ (forall s, clean_slug s = true -> slugify s = s)
  /\ slugify (slugify name) = slugify name.
Proof.
  assert (Hfix : forall s, clean_slug s = true -> slugify s = s).
  { intros s H. unfold clean_slug in H. apply orb_true_iff in H.
    destruct H as [H | H].
    - apply string_eqb_eq in H. now subst.
    - destruct (hyphen_separated_fixed s true H) as (L & R1 & _ & _ & S2).
      unfold slugify. now rewrite L, R1, (S2 eq_refl). }
  split; [apply slugify_clean|]. split; [exact Hfix|].
  apply Hfix, slugify_clean.
Qed.

(** ** The id taken from a URL *)

Lemma split_slash_no_slash (s : string) :
  Forall (fun p => has_slash p = false) (split_slash s).
Proof.
  induction s as [|c s IH]; cbn [split_slash].
  - repeat constructor.
  - destruct (c =? "/")%char eqn:E.
    + constructor; [reflexivity | exact IH].
    + destruct (split_slash s) as [|h t].
      * constructor; [|constructor]. cbn [has_slash]. now rewrite E.
      * inversion IH; subst. constructor; [|assumption].
        cbn [has_slash]. now rewrite E.
Qed.

Lemma split_slash_nonempty (s : string) : split_slash s <> [].
Proof.
  destruct s as [|c s]; cbn [split_slash]; [discriminate|].
  destruct (c =? "/")%char; [discriminate|].
  destruct (split_slash s); discriminate.
Qed.

Lemma split_slash_trailing (s : string) :
  split_slash (s ++ "/") = split_slash s ++ [""].
Proof.
  induction s as [|c s IH]; [reflexivity|].
  cbn [append split_slash]. destruct (c =? "/")%char.
  - now rewrite IH.
  - rewrite IH. pose proof (split_slash_nonempty s) as Hne.
    destruct (split_slash s) as [|h t]; [now elim Hne | reflexivity].
Qed.

Lemma last_elem_in (l : list string) (s : string) :
  last_elem l = VStr s -> In s l.
Proof.
  intros H. destruct (last_elem_cases l) as [E | (s' & E & Hin)].
  - rewrite E in H. discriminate.
  - rewrite E in H. injection H as <-. exact Hin.
Qed.

(** X11.  An id taken from the url is a clean path segment: it is not
    empty and has no slash in it.  Slashes at the end of the url do not
    count: a url and the same url followed by a slash give the same
    segments. *)
Theorem url_segment_clean (url : value) (seg : string) :
  ToBoolean url = true ->
  id_from_url url = Normal (VStr seg) ->
  seg <> "" /\ has_slash seg = false
  /\ (forall u, segments (u ++ "/") = segments u).
Proof.
  intros Ht H. split; [now apply (id_from_url_segment url)|]. split.
  - unfold id_from_url in H. rewrite Ht in H.
    destruct (ToString url) as [u|e]; cbn [bind] in H; [|discriminate].
    injection H as H. apply last_elem_in, filter_In in H.
    destruct H as [Hin _].
    pose proof (split_slash_no_slash u) as Hall.
    rewrite Forall_forall in Hall. now apply Hall.
  - intros u. unfold segments.
    rewrite split_slash_trailing, filter_app. cbn [filter nonempty].
    apply app_nil_r.
Qed.

Lemma url_segment_clean_witness :
  "halo" <> "" /\ has_slash "halo" = false
  /\ (forall u, segments (u ++ "/") = segments u).
Proof.
  apply (url_segment_clean
           (VStr "https://www.thediamondguy.co.za/rings/halo/") "halo");
    reflexivity.
Defined.

(** ** The name of a record *)

Lemma trimEnd_idem (s : string) : trimEnd (trimEnd s) = trimEnd s.
Proof.
  induction s as [|c s IH]; [reflexivity|].
  cbn [trimEnd].
  destruct (is_white c && (trimEnd s =? "")) eqn:E; [reflexivity|].
  cbn [trimEnd]. rewrite IH, E. reflexivity.
Qed.

Lemma trimStart_head (s : string) :
  trimStart s = ""
  \/ exists c r, trimStart s = String c r /\ is_white c = false.
Proof.
  induction s as [|c s IH]; [now left|].
  cbn [trimStart]. destruct (is_white c) eqn:E; [exact IH|].
  right. now exists c, s.
Qed.

Lemma trim_idem (s : string) : trim (trim s) = trim s.
Proof.
  unfold trim.
  destruct (trimStart_head s) as [E | (c & r & E & Hc)]; rewrite E.
  - reflexivity.
  - cbn [trimEnd]. rewrite Hc. cbn [andb trimStart]. rewrite Hc.
    change (String c (trimEnd r)) with (String c (trimEnd r)).
    cbn [trimEnd]. rewrite trimEnd_idem, Hc. reflexivity.
Qed.

Lemma toRingCard_name (product card : value) :
  toRingCard product = Normal card -> ToBoolean card = true ->
  exists raw,
    ToString (js_or (opt_get product "name") (opt_get product "title"))
    = Normal raw
    /\ get card "name" = VStr (trim raw).
Proof.
  unfold toRingCard.
  destruct (negb (ToBoolean (js_or (opt_get product "name") (opt_get product "title")))).
  - intros H. injection H as <-. discriminate.
  - destruct (derive_id product _ (opt_get product "url")) as [id|e];
      cbn [bind]; [|discriminate].
    destruct (ToString _) as [n|e]; cbn [bind]; [|discriminate].
    destruct (ToBoolean (opt_get product "url")).
    + destruct (ToString (opt_get product "url")) as [u|e]; cbn [bind];
        [|discriminate].
      intros H _. injection H as <-. now exists n.
    + cbn [bind]. intros H _. injection H as <-. now exists n.
Qed.

(** X12.  The name of a record is the string form of the item's name
    (of its title when the name is falsy) with the white space at both
    ends taken off: it neither starts nor ends with white space, and
    trimming it again changes nothing. *)
Theorem record_name_trimmed (product card : value) :
  toRingCard product = Normal card -> ToBoolean card = true ->
  exists raw n,
    ToString (js_or (opt_get product "name") (opt_get product "title"))
    = Normal raw
    /\ get card "name" = VStr n
    /\ n = trim raw
    /\ trim n = n
    /\ trimStart n = n /\ trimEnd n = n.
Proof.
  intros H Ht. destruct (toRingCard_name product card H Ht) as (raw & Hr & Hn).
  exists raw, (trim raw). repeat split; try assumption.
  - apply trim_idem.
  - unfold trim.
    destruct (trimStart_head raw) as [E | (c & r & E & Hc)]; rewrite E.
    + reflexivity.
    + cbn [trimEnd]. rewrite Hc. cbn [andb trimStart]. now rewrite Hc.
  - unfold trim. apply trimEnd_idem.
Qed.

Lemma record_name_trimmed_witness :
  exists raw n,
    ToString (js_or (opt_get item_rich "name") (opt_get item_rich "title"))
    = Normal raw
    /\ get (ring (VStr "HALO-7") (VStr "Halo Ring")
              (VStr "https://www.thediamondguy.co.za/rings/halo/")) "name"
       = VStr n
    /\ n = trim raw
    /\ trim n = n
    /\ trimStart n = n /\ trimEnd n = n.
Proof.
  apply (record_name_trimmed item_rich); reflexivity.
Defined.

(** X13.  The mapper reads four properties of an item and no other:
    two items that agree on [name], [title], [sku] and [url] map to the
    same result, whatever else they carry. *)
Theorem mapper_reads_four_properties (p q : value) :
  opt_get p "name" = opt_get q "name" ->
  opt_get p "title" = opt_get q "title" ->
  opt_get p "sku" = opt_get q "sku" ->
  opt_get p "url" = opt_get q "url" ->
  toRingCard p = toRingCard q.
Proof.
  intros Hn Ht Hs Hu. unfold toRingCard, derive_id, id_from_sku.
  rewrite <- !opt_get_get. now rewrite Hn, Ht, Hs, Hu.
Qed.

Lemma mapper_reads_four_properties_witness :
  toRingCard item_rich = toRingCard item_plain.
Proof.
  apply (mapper_reads_four_properties item_rich item_plain); reflexivity.
Defined.

(** ** The empty array *)

(** X14.  The fallback is decided on the records collected, before they
    are deduplicated.  So the array a run writes is empty in one case
    only: records were collected and every one of them has the empty
    id.  Such a run writes neither its records nor the placeholders. *)
Theorem written_empty_iff (JSON_parse : string -> completion value)
  (fetch : string -> completion response) (rings : list value) :
  outcome (main JSON_parse fetch) = Normal rings ->
  (rings = [] <->
   collected JSON_parse fetch <> []
   /\ Forall (fun p => id_of p = VStr "") (collected JSON_parse fetch))
  /\ (rings = [] -> rings <> placeholders).
Proof.
  intros H. apply main_written in H. subst rings.
  pose proof (collected_mapped JSON_parse fetch) as Hm.
  split; [|intros ->; discriminate].
  destruct (collected JSON_parse fetch) as [|p ps] eqn:E.
  - split; [discriminate | now intros [Hne _]].
  - unfold rings_of. fold id_of. change (fun p : value => id_of p) with id_of.
    rewrite uniqBy_kept, kept_nil. split.
    + intros Hall. split; [discriminate|].
      rewrite Forall_forall in *. intros x Hx.
      destruct (mapped_id_string x (Hm x Hx)) as (s & Hs).
      specialize (Hall x Hx). rewrite Hs in *. simpl in Hall.
      apply negb_false_iff, string_eqb_eq in Hall. now subst.
    + intros [_ Hall]. rewrite Forall_forall in *. intros x Hx.
      now rewrite (Hall x Hx).
Qed.

Lemma written_empty_iff_witness :
  outcome (main read_json site_symbols) = Normal []
  /\ collected read_json site_symbols <> []
  /\ Forall (fun p => id_of p = VStr "") (collected read_json site_symbols).
Proof.
  assert (H : outcome (main read_json site_symbols) = Normal [])
    by (vm_compute; reflexivity).
  split; [exact H|].
  exact (proj1 (proj1 (written_empty_iff read_json site_symbols [] H)) eq_refl).
Defined.
